(** * hashify.py: hashing one column of a CSV file

    A shallow embedding of [python/csv-hasher/hashify.py] and the
    properties of its specification.

    Conventions of the embedding.
    - A Python [str] is the list of its code points ([list N]); [bytes] is
      a [list byte].
    - An exception is a value of [exn]; a call that may raise returns
      [exn + A].  Code that also touches the file system or the standard
      streams runs in the monad [M], which threads the [process] state and
      keeps the state reached when an exception is raised.
    - A file is represented by what the [csv] module reads from it or
      writes to it: a sequence of records (lists of fields), possibly
      followed by a failure of the reader (undecodable bytes, a malformed
      record).  The byte-level syntax of CSV is the [csv] module's concern
      and stays below this model.
    - What belongs to the interpreter and its library and is not fixed by
      the program (the digests themselves, [str.lower] outside ASCII, the
      text of library exceptions) is collected in the class [PyLib]. *)

From Stdlib Require Import NArith ZArith List Lia.
From Stdlib.Strings Require Import String Ascii Byte.
From stdpp Require Import base option list gmap.

Local Open Scope N_scope.

(** ** Strings and bytes *)

Abbreviation str := (list N).
Abbreviation bytes := (list byte).

(** A literal of the source, whose characters are all ASCII. *)
Definition lit (s : string) : str :=
  map N_of_ascii (list_ascii_of_string s).

(** [sep.join(l)] *)
Fixpoint join (sep : str) (l : list str) : str :=
  match l with
  | [] => []
  | [x] => x
  | x :: l' => x ++ sep ++ join sep l'
  end.

(** The byte with value [n mod 256]. *)
Definition byte_of_N (n : N) : byte :=
  match Byte.of_N (N.land n 255) with
  | Some b => b
  | None => x00
  end.

(** [chr(c).encode('utf-8')] with the default [errors='strict']: [None]
    stands for the [UnicodeEncodeError] raised on a surrogate (and covers
    numbers that are no code point at all). *)
Definition encode_char (c : N) : option bytes :=
  if c <? 0x80 then Some [byte_of_N c]
  else if c <? 0x800 then
    Some [byte_of_N (N.lor 0xC0 (N.shiftr c 6));
          byte_of_N (N.lor 0x80 (N.land c 0x3F))]
  else if (0xD800 <=? c) && (c <=? 0xDFFF) then None
  else if c <? 0x10000 then
    Some [byte_of_N (N.lor 0xE0 (N.shiftr c 12));
          byte_of_N (N.lor 0x80 (N.land (N.shiftr c 6) 0x3F));
          byte_of_N (N.lor 0x80 (N.land c 0x3F))]
  else if c <? 0x110000 then
    Some [byte_of_N (N.lor 0xF0 (N.shiftr c 18));
          byte_of_N (N.lor 0x80 (N.land (N.shiftr c 12) 0x3F));
          byte_of_N (N.lor 0x80 (N.land (N.shiftr c 6) 0x3F));
          byte_of_N (N.lor 0x80 (N.land c 0x3F))]
  else None.

(** [s.encode('utf-8')] *)
Fixpoint encode_utf8 (s : str) : option bytes :=
  match s with
  | [] => Some []
  | c :: s' =>
      match encode_char c, encode_utf8 s' with
      | Some b, Some bs => Some (b ++ bs)
      | _, _ => None
      end
  end.

(** One hexadecimal digit, in lower case: ['0'..'9'], ['a'..'f']. *)
Definition hex_digit (n : N) : N :=
  if n <? 10 then 48 + n else 87 + n.

(** [h.hexdigest()] for a hash object whose digest is [d]. *)
Definition hexdigest (d : bytes) : str :=
  flat_map (fun b => [hex_digit (Byte.to_N b / 16);
                      hex_digit (Byte.to_N b mod 16)]) d.


(** ** Exceptions *)

(** The classes the handlers of [hash_csv_column] tell apart, each with
    the text [str(e)].  [ValueError] includes its subclasses
    ([UnicodeDecodeError], [UnicodeEncodeError]); [OtherException] is any
    other subclass of [Exception] ([csv.Error], [OSError] other than
    [FileNotFoundError], ...). *)
Inductive exn : Type :=
| FileNotFoundError (msg : str)
| ValueError (msg : str)
| TypeError (msg : str)
| OtherException (msg : str).

Definition exn_str (e : exn) : str :=
  match e with
  | FileNotFoundError m | ValueError m | TypeError m | OtherException m => m
  end.

(** ** The interpreter and its library *)

Class PyLib : Type := {
  (** [hashlib.md5(data).digest()] and its five siblings *)
  hashlib_md5 : bytes -> bytes;
  hashlib_sha1 : bytes -> bytes;
  hashlib_sha256 : bytes -> bytes;
  hashlib_sha512 : bytes -> bytes;
  hashlib_blake2b : bytes -> bytes;
  hashlib_blake2s : bytes -> bytes;
  (** [s.lower()] and [s.upper()] for a string that is not pure ASCII *)
  unicode_lower : str -> str;
  unicode_upper : str -> str;
  (** [repr(s)] *)
  repr_str : str -> str;
  (** [str(e)] of the [UnicodeEncodeError] of [s.encode('utf-8')] *)
  encode_error_str : str -> str;
  (** [str(e)] of the [TypeError] of [x in None] *)
  none_not_iterable_str : str;
  (** [str(e)] of the [FileNotFoundError] of [open(path)] *)
  no_such_file_str : str -> str
}.

(** ** [str.lower] and [str.upper] *)

Definition is_ascii (c : N) : bool := c <? 128.

Definition ascii_lower_char (c : N) : N :=
  if (65 <=? c) && (c <=? 90) then c + 32 else c.

(** CPython lowers a pure-ASCII string character by character and goes
    through the Unicode tables otherwise. *)
Definition str_lower `{PyLib} (s : str) : str :=
  if forallb is_ascii s then map ascii_lower_char s else unicode_lower s.

Definition ascii_upper_char (c : N) : N :=
  if (97 <=? c) && (c <=? 122) then c - 32 else c.

Definition str_upper `{PyLib} (s : str) : str :=
  if forallb is_ascii s then map ascii_upper_char s else unicode_upper s.

(** ** [get_hash_function] *)

(** A hash constructor, seen through the only use the program makes of
    it: [hash_func(data).hexdigest()] is [hexdigest (hash_func data)]. *)
Abbreviation hash_function := (bytes -> bytes).

(** The dict literal [algorithms], in insertion order. *)
Definition algorithms `{PyLib} : list (str * hash_function) :=
  [ (lit "md5", hashlib_md5);
    (lit "sha1", hashlib_sha1);
    (lit "sha256", hashlib_sha256);
    (lit "sha512", hashlib_sha512);
    (lit "blake2b", hashlib_blake2b);
    (lit "blake2s", hashlib_blake2s) ].

(** [d[key]] / [key in d] on a dict given by its items. *)
Fixpoint dict_get {V : Type} (key : str) (d : list (str * V)) : option V :=
  match d with
  | [] => None
  | (k, v) :: d' => if decide (k = key) then Some v else dict_get key d'
  end.

Definition dict_keys {V : Type} (d : list (str * V)) : list str := map fst d.

Definition get_hash_function `{PyLib} (algorithm : str) : exn + hash_function :=
  match dict_get (str_lower algorithm) algorithms with
  | None =>
      inl (ValueError (lit "Unsupported algorithm: " ++ algorithm
                       ++ lit ". Supported: "
                       ++ join (lit ", ") (dict_keys algorithms)))
  | Some hash_func => inr hash_func
  end.

(** ** Files, standard streams and the monad of the program *)

Abbreviation record := (list str).

(** What a path names.  A regular file holds the records the [csv] reader
    finds in it, and [read_error] is the exception the reader raises after
    them, if any.  [Unopenable e] is a path that exists and on which
    [open] raises [e] (a directory, a file the user may not open). *)
Inductive node : Type :=
| Regular (records : list record) (read_error : option exn)
| Unopenable (e : exn).

Record process : Type := Process {
  files : gmap str node;
  stdout : list str;
  stderr : list str
}.

Definition M (A : Type) : Type := process -> process * (exn + A).

#[global] Instance M_ret : MRet M := fun A a s => (s, inr a).
#[global] Instance M_bind : MBind M := fun A B f m s =>
  match m s with
  | (s', inr a) => f a s'
  | (s', inl e) => (s', inl e)
  end.

Definition raise {A : Type} (e : exn) : M A := fun s => (s, inl e).

Definition lift {A : Type} (r : exn + A) : M A := fun s => (s, r).

(** [print(line)] and [print(line, file=sys.stderr)] *)
Definition print (line : str) : M unit := fun s =>
  (Process (files s) (stdout s ++ [line]) (stderr s), inr tt).

Definition print_stderr (line : str) : M unit := fun s =>
  (Process (files s) (stdout s) (stderr s ++ [line]), inr tt).

(** [Path(p).exists()] *)
Definition Path_exists (p : str) (s : process) : bool :=
  bool_decide (is_Some (files s !! p)).

(** [open(path, 'r', newline='', encoding='utf-8')] followed by
    [csv.reader]: the records the reader will yield and the exception it
    raises after the last of them.  They are those the file holds when it
    is opened, which is what the program reads as long as it does not write
    to the file it is reading: the properties of the transformation are
    stated for an output path that differs from the input path. *)
Definition open_read `{PyLib} (path : str) : M (list record * option exn) :=
  fun s =>
    match files s !! path with
    | None => (s, inl (FileNotFoundError (no_such_file_str path)))
    | Some (Unopenable e) => (s, inl e)
    | Some (Regular records read_error) => (s, inr (records, read_error))
    end.

(** [open(path, 'w', newline='', encoding='utf-8')]: the file is created,
    or truncated when it exists. *)
Definition open_write (path : str) : M unit := fun s =>
  match files s !! path with
  | Some (Unopenable e) => (s, inl e)
  | _ => (Process (<[path := Regular [] None]> (files s)) (stdout s) (stderr s),
          inr tt)
  end.

Definition append_record (r : record) (n : node) : node :=
  match n with
  | Regular records read_error => Regular (records ++ [r]) read_error
  | Unopenable e => Unopenable e
  end.

(** [csv.writer(outfile).writerow(fields)] on the file opened at [path]:
    [None] is written as the empty field. *)
Definition csv_field (v : option str) : str :=
  match v with
  | None => []
  | Some s => s
  end.

Definition writer_writerow (path : str) (fields : list (option str)) : M unit :=
  fun s =>
    (Process (alter (append_record (map csv_field fields)) path (files s))
             (stdout s) (stderr s),
     inr tt).

(** ** [csv.DictReader] *)

(** A row as [DictReader] yields it: [cols] binds column names to a string
    or to [None] ([restval]); [rest] is the entry under the key [None]
    ([restkey]), the surplus fields of a row longer than the header. *)
Record rowdict : Type := RowDict {
  cols : gmap str (option str);
  rest : option (list str)
}.

(** [dict(zip(keys, values))]: a later pair overrides an earlier one with
    the same key. *)
Definition dict_zip (keys : list str) (values : list str)
  : gmap str (option str) :=
  foldl (fun d kv => <[kv.1 := Some kv.2]> d) ∅ (zip keys values).

(** The first access to [reader.fieldnames]: the first record of the file,
    blank or not; [None] when the file has no record at all. *)
Definition DictReader_fieldnames (records : list record)
    (read_error : option exn) : exn + (option (list str) * list record) :=
  match records with
  | fieldnames :: pending => inr (Some fieldnames, pending)
  | [] =>
      match read_error with
      | Some e => inl e
      | None => inr (None, [])
      end
  end.

(** The dict [DictReader.__next__] builds from a non-blank record. *)
Definition DictReader_row (fieldnames : list str) (row : record) : rowdict :=
  let d := dict_zip fieldnames row in
  let lf := length fieldnames in
  let lr := length row in
  if (lf <? lr)%nat then
    RowDict d (Some (drop lf row))
  else if (lr <? lf)%nat then
    RowDict (foldl (fun d key => <[key := None]> d) d (drop lr fieldnames)) None
  else
    RowDict d None.

(** ** [csv.DictWriter] *)

(** [rowdict.keys() - self.fieldnames] *)
Definition wrong_fields (fieldnames : list str) (d : rowdict)
  : list (option str) :=
  (Some <$> filter (fun key => key ∉ fieldnames) (elements (dom (cols d))))
  ++ match rest d with Some _ => [None] | None => [] end.

Definition repr_key `{PyLib} (key : option str) : str :=
  match key with
  | None => lit "None"
  | Some s => repr_str s
  end.

(** [DictWriter._dict_to_list] with [extrasaction='raise'] and
    [restval=''], the defaults. *)
Definition dict_to_list `{PyLib} (fieldnames : list str) (d : rowdict)
  : exn + list (option str) :=
  match wrong_fields fieldnames d with
  | [] => inr (map (fun key => default (Some []) (cols d !! key)) fieldnames)
  | wrong =>
      inl (ValueError (lit "dict contains fields not in fieldnames: "
                       ++ join (lit ", ") (map repr_key wrong)))
  end.

Definition DictWriter_writerow `{PyLib} (path : str) (fieldnames : list str)
    (d : rowdict) : M unit :=
  fields ← lift (dict_to_list fieldnames d);
  writer_writerow path fields.

Definition DictWriter_writeheader `{PyLib} (path : str)
    (fieldnames : list str) : M unit :=
  DictWriter_writerow path fieldnames
    (RowDict (dict_zip fieldnames fieldnames) None).

(** ** [hash_csv_column] *)

(** [bool(v)] for a value of a row: [None] and the empty string are
    false. *)
Definition truthy (v : option str) : bool :=
  match v with
  | None => false
  | Some s => negb (bool_decide (s = []))
  end.

(** The body of the loop before the write: [row[column_name]] is looked
    up (a [KeyError] if the key is missing) and, when it is true, replaced
    by the hexadecimal digest of its UTF-8 encoding. *)
Definition hash_row `{PyLib} (hash_func : hash_function) (column_name : str)
    (row : rowdict) : exn + rowdict :=
  match cols row !! column_name with
  | None => inl (OtherException (repr_str column_name))
  | Some original_value =>
      if truthy original_value then
        match original_value with
        | Some s =>
            match encode_utf8 s with
            | Some data =>
                let hashed_value := hexdigest (hash_func data) in
                inr (RowDict (<[column_name := Some hashed_value]> (cols row))
                             (rest row))
            | None => inl (ValueError (encode_error_str s))
            end
        | None => inr row
        end
      else inr row
  end.

(** [for row in reader: body(row)].  [DictReader.__next__] skips blank
    records; when the records are exhausted the reader either stops or
    raises the file's [read_error]. *)
Fixpoint for_rows (fieldnames : list str) (body : rowdict -> M unit)
    (pending : list record) (read_error : option exn) : M unit :=
  match pending with
  | [] =>
      match read_error with
      | Some e => raise e
      | None => mret tt
      end
  | [] :: pending' => for_rows fieldnames body pending' read_error
  | row :: pending' =>
      body (DictReader_row fieldnames row);;
      for_rows fieldnames body pending' read_error
  end.

(** One turn of the loop: lines 50 to 54 of the source. *)
Definition transcode_row `{PyLib} (output_file : str) (fieldnames : list str)
    (hash_func : hash_function) (column_name : str) (row : rowdict) : M unit :=
  row' ← lift (hash_row hash_func column_name row);
  DictWriter_writerow output_file fieldnames row'.

(** The message of line 56. *)
Definition success_message `{PyLib} (output_file column_name algorithm : str)
  : str :=
  lit "Successfully hashed column '" ++ column_name
  ++ lit "' using " ++ str_upper algorithm
  ++ lit " and saved to '" ++ output_file ++ lit "'".

(** The [try] block. *)
Definition hash_csv_column_try `{PyLib}
    (input_file output_file column_name algorithm : str) : M unit :=
  hash_func ← lift (get_hash_function algorithm);
  infile ← open_read input_file;
  reader ← lift (DictReader_fieldnames infile.1 infile.2);
  match reader.1 with
  | None => raise (TypeError none_not_iterable_str)
  | Some fieldnames =>
      if negb (bool_decide (column_name ∈ fieldnames)) then
        raise (ValueError (lit "Column '" ++ column_name
                           ++ lit "' not found in CSV. Available columns: "
                           ++ join (lit ", ") fieldnames))
      else
        open_write output_file;;
        DictWriter_writeheader output_file fieldnames;;
        for_rows fieldnames
          (transcode_row output_file fieldnames hash_func column_name)
          reader.2 infile.2;;
        print (success_message output_file column_name algorithm)
  end.

(** The whole function: [None] when it returns, [Some code] when it
    leaves through [sys.exit(code)]. *)
Definition hash_csv_column `{PyLib}
    (input_file output_file column_name algorithm : str)
  : process -> process * option Z :=
  fun s =>
    match hash_csv_column_try input_file output_file column_name algorithm s with
    | (s', inr _) => (s', None)
    | (s', inl (FileNotFoundError m)) =>
        ((print_stderr (lit "Error: File not found - " ++ m) s').1, Some 1%Z)
    | (s', inl e) =>
        ((print_stderr (lit "Error: " ++ exn_str e) s').1, Some 1%Z)
    end.

(** ** [main] *)

(** The namespace [parser.parse_args()] returns. *)
Record Namespace : Type := {
  input_file : str;
  output_file : str;
  column_name : str;
  algorithm : str
}.

(** The [choices] of [--algorithm]: [argparse] accepts no other value. *)
Definition choices : list str :=
  [lit "md5"; lit "sha1"; lit "sha256"; lit "sha512"; lit "blake2b";
   lit "blake2s"].

(** [main] after [parse_args]; the result is the exit status of the
    process. *)
Definition main `{PyLib} (args : Namespace) : process -> process * Z :=
  fun s =>
    if negb (Path_exists (input_file args) s) then
      ((print_stderr (lit "Error: Input file '" ++ input_file args
                      ++ lit "' does not exist") s).1, 1%Z)
    else
      match hash_csv_column (input_file args) (output_file args)
              (column_name args) (algorithm args) s with
      | (s', Some code) => (s', code)
      | (s', None) => (s', 0%Z)
      end.

(** ** Notions used to state the properties *)

(** The data rows of a file whose first record is the header: the records
    [DictReader] yields, that is the non-blank ones. *)
Definition data_rows (pending : list record) : list record :=
  filter (fun r => r ≠ []) pending.

(** [x] occurs in the text [m]. *)
Definition occurs_in (x m : str) : Prop :=
  exists pre post, m = pre ++ x ++ post.

(** The record one turn of the loop writes for an input record, or the
    exception it raises: [transcode_row] without the file. *)
Definition transcode_record `{PyLib} (fieldnames : list str)
    (hash_func : hash_function) (column_name : str) (r : record)
  : exn + record :=
  match hash_row hash_func column_name (DictReader_row fieldnames r) with
  | inl e => inl e
  | inr row' =>
      match dict_to_list fieldnames row' with
      | inl e => inl e
      | inr fields => inr (map csv_field fields)
      end
  end.

(** The records the loop writes before it stops, and how it stops. *)
Fixpoint transcode_rows `{PyLib} (fieldnames : list str)
    (hash_func : hash_function) (column_name : str)
    (pending : list record) (read_error : option exn)
  : list record * (exn + unit) :=
  match pending with
  | [] =>
      ([], match read_error with Some e => inl e | None => inr tt end)
  | [] :: pending' =>
      transcode_rows fieldnames hash_func column_name pending' read_error
  | r :: pending' =>
      match transcode_record fieldnames hash_func column_name r with
      | inl e => ([], inl e)
      | inr out =>
          let later :=
            transcode_rows fieldnames hash_func column_name pending' read_error in
          (out :: later.1, later.2)
      end
  end.

(** A code point that is a Unicode scalar value: the strings decoded from
    a UTF-8 file hold no other. *)
Definition is_scalar (c : N) : bool :=
  (c <? 0xD800) || ((0xDFFF <? c) && (c <? 0x110000)).

(** A record the loop can take: fields decoded from UTF-8, and no more of
    them than the header has names. *)
Definition well_formed (fieldnames : list str) (r : record) : Prop :=
  (length r <= length fieldnames)%nat
  /\ Forall (Forall (fun c => is_scalar c = true)) r.

(** The first character of a UTF-8 byte sequence and the bytes after it:
    the inverse of [encode_char], used to show that distinct strings have
    distinct encodings. *)
Definition decode_char (bs : bytes) : option (N * bytes) :=
  match bs with
  | [] => None
  | b0 :: t =>
      let n0 := Byte.to_N b0 in
      if n0 <? 0x80 then Some (n0, t)
      else if n0 <? 0xC0 then None
      else if n0 <? 0xE0 then
        match t with
        | b1 :: t1 =>
            Some (N.lor (N.shiftl (N.land n0 0x1F) 6)
                        (N.land (Byte.to_N b1) 0x3F), t1)
        | _ => None
        end
      else if n0 <? 0xF0 then
        match t with
        | b1 :: b2 :: t2 =>
            Some (N.lor (N.shiftl (N.land n0 0x0F) 12)
                    (N.lor (N.shiftl (N.land (Byte.to_N b1) 0x3F) 6)
                           (N.land (Byte.to_N b2) 0x3F)), t2)
        | _ => None
        end
      else
        match t with
        | b1 :: b2 :: b3 :: t3 =>
            Some (N.lor (N.shiftl (N.land n0 0x07) 18)
                    (N.lor (N.shiftl (N.land (Byte.to_N b1) 0x3F) 12)
                       (N.lor (N.shiftl (N.land (Byte.to_N b2) 0x3F) 6)
                              (N.land (Byte.to_N b3) 0x3F))), t3)
        | _ => None
        end
  end.

(** A path [open(path, 'w')] accepts. *)
Definition writable (path : str) (s : process) : Prop :=
  forall e, files s !! path ≠ Some (Unopenable e).

(** ** A library to run the program on examples

    The digests are stand-ins (a tag for the algorithm, then the sum of
    the input bytes); the rest follows CPython on ASCII text. *)

Definition sample_digest (tag : N) (data : bytes) : bytes :=
  [byte_of_N tag; byte_of_N (foldr (fun b n => Byte.to_N b + n) 0 data)].

Definition sample_lib : PyLib := {|
  hashlib_md5 := sample_digest 1;
  hashlib_sha1 := sample_digest 2;
  hashlib_sha256 := sample_digest 3;
  hashlib_sha512 := sample_digest 4;
  hashlib_blake2b := sample_digest 5;
  hashlib_blake2s := sample_digest 6;
  unicode_lower := fun s => s;
  unicode_upper := fun s => s;
  repr_str := fun s => lit "'" ++ s ++ lit "'";
  encode_error_str := fun _ => lit "surrogates not allowed";
  none_not_iterable_str := lit "argument of type 'NoneType' is not iterable";
  no_such_file_str := fun p =>
    lit "[Errno 2] No such file or directory: '" ++ p ++ lit "'"
|}.

(** The scenario of the specification, with a blank line and a short row
    added. *)
Definition sample_input : list record :=
  [ [lit "id"; lit "email"];
    [lit "1"; lit "alice@example.com"];
    [];
    [lit "2"; []];
    [lit "3"] ].

Definition sample_process : process :=
  Process {[ lit "in.csv" := Regular sample_input None ]} [] [].

Definition sample_args : Namespace := {|
  input_file := lit "in.csv";
  output_file := lit "out.csv";
  column_name := lit "email";
  algorithm := lit "sha256"
|}.

Definition sample_run : process * option Z :=
  @hash_csv_column sample_lib (lit "in.csv") (lit "out.csv") (lit "email")
    (lit "sha256") sample_process.

(** A second file system: the same records under another name, next to an
    output file left by an earlier run. *)
Definition sample_process2 : process :=
  Process {[ lit "copy.csv" := Regular sample_input None;
             lit "old.csv" := Regular [[lit "stale"]] None ]}
          [lit "earlier output"] [].


(** The run of [hash_csv_column] with sha256 on a file [in.csv] that holds
    [records] and may fail to read after them, in an otherwise empty file
    system. *)
Definition sample_run_on (records : list record) (read_error : option exn)
    (column_name : str) : process * option Z :=
  @hash_csv_column sample_lib (lit "in.csv") (lit "out.csv") column_name
    (lit "sha256")
    (Process {[ lit "in.csv" := Regular records read_error ]} [] []).

(** A file system that holds [in.csv] with the given contents, and a
    directory. *)
Definition sample_process_on (records : list record)
    (read_error : option exn) : process :=
  Process {[ lit "in.csv" := Regular records read_error;
             lit "dir" := Unopenable (OtherException (lit "Is a directory")) ]}
          [] [].

Definition sample_header : list str := [lit "id"; lit "email"].

(** * Properties *)

(** ** Strings *)



Lemma hexdigest_length (d : bytes) :
  length (hexdigest d) = (2 * length d)%nat.
Proof. induction d as [|b d IH]; simpl; [reflexivity|]. rewrite IH. lia. Qed.

Lemma occurs_in_refl (x : str) : occurs_in x x.
Proof. exists [], []. by rewrite app_nil_r. Qed.

Lemma occurs_in_app_l (x m pre : str) : occurs_in x m -> occurs_in x (pre ++ m).
Proof.
  intros (a & b & ->). exists (pre ++ a), b. by rewrite <- app_assoc.
Qed.

Lemma occurs_in_app_r (x m post : str) :
  occurs_in x m -> occurs_in x (m ++ post).
Proof.
  intros (a & b & ->). exists a, (b ++ post). by rewrite <- !app_assoc.
Qed.

Lemma join_occurs (sep x : str) (l : list str) :
  x ∈ l -> occurs_in x (join sep l).
Proof.
  induction l as [|y l IH]; intros Hx; [by apply elem_of_nil in Hx|].
  apply elem_of_cons in Hx as [->|Hx].
  - destruct l as [|z l]; simpl; [apply occurs_in_refl|].
    apply occurs_in_app_r, occurs_in_refl.
  - destruct l as [|z l]; [by apply elem_of_nil in Hx|].
    change (join sep (y :: z :: l)) with (y ++ sep ++ join sep (z :: l)).
    by apply occurs_in_app_l, occurs_in_app_l, IH.
Qed.

Section Properties.
Context `{PyLib}.

(** ** The algorithm resolver *)

Lemma dict_get_None {V : Type} (key : str) (d : list (str * V)) :
  key ∉ dict_keys d -> dict_get key d = None.
Proof.
  induction d as [|[k v] d IH]; simpl; [reflexivity|].
  intros Hk. apply not_elem_of_cons in Hk as [Hne Hk].
  destruct (decide (k = key)) as [->|_]; [done|]. by apply IH.
Qed.

Lemma dict_get_Some {V : Type} (key : str) (v : V) (d : list (str * V)) :
  NoDup (dict_keys d) -> (key, v) ∈ d -> dict_get key d = Some v.
Proof.
  induction d as [|[k w] d IH]; simpl; intros Hnd Hin.
  - by apply elem_of_nil in Hin.
  - apply NoDup_cons in Hnd as [Hk Hnd].
    apply elem_of_cons in Hin as [Heq|Hin].
    + injection Heq as -> ->. by rewrite decide_True.
    + destruct (decide (k = key)) as [->|_]; [|by apply IH].
      exfalso. apply Hk. unfold dict_keys.
      apply list_elem_of_fmap. by exists (key, v).
Qed.

Lemma algorithms_keys : dict_keys algorithms = choices.
Proof. reflexivity. Qed.

Lemma algorithms_NoDup : NoDup (dict_keys algorithms).
Proof.
  rewrite algorithms_keys.
  apply (bool_decide_unpack (NoDup choices)). by vm_compute.
Qed.

(** The six names are in lower case already. *)
Lemma str_lower_choice (name : str) : name ∈ choices -> str_lower name = name.
Proof.
  unfold choices. rewrite !elem_of_cons, elem_of_nil.
  intros [->|[->|[->|[->|[->|[->|[]]]]]]]; reflexivity.
Qed.

Lemma ascii_lower_char_ascii (c : N) :
  is_ascii (ascii_lower_char c) = true -> is_ascii c = true.
Proof.
  unfold is_ascii, ascii_lower_char.
  destruct ((65 <=? c) && (c <=? 90)) eqn:Hupper; [|done].
  intros _. apply andb_true_iff in Hupper as [_ Hle].
  apply N.leb_le in Hle. apply N.ltb_lt. lia.
Qed.

(** A string that differs from an ASCII string only by the case of its
    letters is itself ASCII, and [str.lower] maps it to that string when
    the latter is in lower case. *)
Lemma str_lower_ascii (s name : str) :
  forallb is_ascii name = true ->
  map ascii_lower_char s = name ->
  str_lower s = name.
Proof.
  intros Hname Hs. unfold str_lower.
  replace (forallb is_ascii s) with true; [done|].
  symmetry. subst name. induction s as [|c s IH]; [done|].
  simpl in *. apply andb_true_iff in Hname as [Hc Hs].
  by rewrite (ascii_lower_char_ascii _ Hc), IH.
Qed.

Lemma algorithms_ascii (name : str) :
  name ∈ dict_keys algorithms -> forallb is_ascii name = true.
Proof.
  rewrite algorithms_keys. unfold choices.
  rewrite !elem_of_cons, elem_of_nil.
  intros [->|[->|[->|[->|[->|[->|[]]]]]]]; reflexivity.
Qed.

(** C7. The resolver lowers the name it is given and looks it up in a table
    whose keys are exactly md5, sha1, sha256, sha512, blake2b and blake2s.
    When the lowered name is a key, the function bound to that key is
    returned; this is the case of every name that differs from a key only
    by the case of its ASCII letters.  When the lowered name is no key, a
    [ValueError] is raised whose message contains each of the six names. *)
Theorem get_hash_function_resolves (algorithm : str) :
  dict_keys algorithms
    = [lit "md5"; lit "sha1"; lit "sha256"; lit "sha512"; lit "blake2b";
       lit "blake2s"]
  /\ (forall name hash_func,
        (name, hash_func) ∈ algorithms ->
        str_lower algorithm = name ->
        get_hash_function algorithm = inr hash_func)
  /\ (forall name hash_func,
        (name, hash_func) ∈ algorithms ->
        map ascii_lower_char algorithm = name ->
        get_hash_function algorithm = inr hash_func)
  /\ (str_lower algorithm ∉ dict_keys algorithms ->
      exists msg,
        get_hash_function algorithm = inl (ValueError msg)
        /\ forall name, name ∈ dict_keys algorithms -> occurs_in name msg).
Proof.
  assert (forall name hash_func,
            (name, hash_func) ∈ algorithms ->
            str_lower algorithm = name ->
            get_hash_function algorithm = inr hash_func) as Hfound.
  { intros name hash_func Hin Hlow. unfold get_hash_function.
    rewrite Hlow, (dict_get_Some name hash_func); auto using algorithms_NoDup. }
  split; [reflexivity|]. split; [exact Hfound|]. split.
  - intros name hash_func Hin Hcase. apply (Hfound name); [done|].
    apply str_lower_ascii; [|done]. apply algorithms_ascii.
    unfold dict_keys. apply list_elem_of_fmap. by exists (name, hash_func).
  - intros Hout. unfold get_hash_function. rewrite dict_get_None by done.
    eexists. split; [reflexivity|].
    intros name Hname. do 3 apply occurs_in_app_l. by apply join_occurs.
Qed.

(** A name [argparse] lets through always resolves. *)
Lemma get_hash_function_choice (algorithm : str) :
  algorithm ∈ choices -> exists hash_func,
    get_hash_function algorithm = inr hash_func.
Proof.
  intros Hin. unfold get_hash_function. rewrite str_lower_choice by done.
  revert Hin. unfold choices. rewrite !elem_of_cons, elem_of_nil.
  intros [->|[->|[->|[->|[->|[->|[]]]]]]]; eexists; reflexivity.
Qed.

(** ** The dicts of [DictReader] *)

Lemma dom_foldl_some (d : gmap str (option str)) (l : list (str * str)) :
  dom (foldl (fun d kv => <[kv.1 := Some kv.2]> d) d l)
  = dom d ∪ list_to_set l.*1.
Proof.
  revert d. induction l as [|[k v] l IH]; intros d; simpl.
  - by rewrite (right_id_L ∅ (∪)).
  - by rewrite IH, dom_insert_L, (comm_L (∪) {[k]}), (assoc_L (∪)).
Qed.

Lemma dom_foldl_none (d : gmap str (option str)) (keys : list str) :
  dom (foldl (fun d key => <[key := None]> d) d keys)
  = dom d ∪ list_to_set keys.
Proof.
  revert d. induction keys as [|k keys IH]; intros d; simpl.
  - by rewrite (right_id_L ∅ (∪)).
  - by rewrite IH, dom_insert_L, (comm_L (∪) {[k]}), (assoc_L (∪)).
Qed.

Lemma dom_dict_zip (keys values : list str) :
  dom (dict_zip keys values) = list_to_set (take (length values) keys).
Proof.
  unfold dict_zip. rewrite dom_foldl_some, dom_empty_L, (left_id_L ∅ (∪)).
  f_equal. rewrite <- (zip_with_take_l pair keys values).
  apply fst_zip. rewrite length_take. lia.
Qed.

(** Every column name is a key of the row, and no other string is. *)
Lemma dom_DictReader_row (fieldnames : list str) (row : record) :
  dom (cols (DictReader_row fieldnames row)) = list_to_set fieldnames.
Proof.
  unfold DictReader_row.
  destruct (Nat.ltb_spec (length fieldnames) (length row)) as [Hlt|Hge]; simpl.
  - rewrite dom_dict_zip, take_ge by lia. reflexivity.
  - destruct (Nat.ltb_spec (length row) (length fieldnames)) as [Hlt|Hge'];
      simpl.
    + rewrite dom_foldl_none, dom_dict_zip, <- list_to_set_app_L, take_drop.
      reflexivity.
    + rewrite dom_dict_zip, take_ge by lia. reflexivity.
Qed.

Lemma DictReader_row_is_Some (fieldnames : list str) (row : record)
    (name : str) :
  name ∈ fieldnames ->
  is_Some (cols (DictReader_row fieldnames row) !! name).
Proof.
  intros Hin. apply elem_of_dom. rewrite dom_DictReader_row.
  by apply elem_of_list_to_set.
Qed.

Lemma lookup_foldl_none (d : gmap str (option str)) (keys : list str)
    (k : str) :
  foldl (fun d key => <[key := None]> d) d keys !! k
  = if decide (k ∈ keys) then Some None else d !! k.
Proof.
  revert d. induction keys as [|x keys IH]; intros d; cbn [foldl].
  - rewrite decide_False by apply not_elem_of_nil. reflexivity.
  - rewrite IH. destruct (decide (k ∈ keys)) as [Hin|Hout].
    + rewrite decide_True by (by right). reflexivity.
    + destruct (decide (x = k)) as [->|Hne].
      * rewrite lookup_insert_eq, decide_True by left. reflexivity.
      * rewrite lookup_insert_ne by done.
        rewrite decide_False; [reflexivity|].
        intros [->|?]%elem_of_cons; done.
Qed.

Lemma lookup_foldl_some_notin (d : gmap str (option str))
    (keys values : list str) (k : str) :
  k ∉ keys ->
  foldl (fun d kv => <[kv.1 := Some kv.2]> d) d (zip keys values) !! k
  = d !! k.
Proof.
  revert d values. induction keys as [|x keys IH]; intros d values Hk;
    [reflexivity|].
  apply not_elem_of_cons in Hk as [Hne Hk].
  destruct values as [|v values]; [reflexivity|]. simpl.
  rewrite IH by done. by rewrite lookup_insert_ne.
Qed.



(** A name whose column lies beyond the end of a short row is bound to
    [None], repeated names or not. *)
Lemma lookup_DictReader_row_missing (fieldnames : list str) (row : record)
    (j : nat) (name : str) :
  (length row <= j)%nat -> fieldnames !! j = Some name ->
  cols (DictReader_row fieldnames row) !! name = Some None.
Proof.
  intros Hj Hname. pose proof (lookup_lt_Some _ _ _ Hname) as Hlen.
  unfold DictReader_row.
  destruct (Nat.ltb_spec (length fieldnames) (length row)); [lia|].
  destruct (Nat.ltb_spec (length row) (length fieldnames)); [|lia]. simpl.
  rewrite lookup_foldl_none, decide_True; [reflexivity|].
  apply list_elem_of_lookup. exists (j - length row)%nat.
  rewrite lookup_drop.
  by replace (length row + (j - length row))%nat with j by lia.
Qed.

Lemma rest_DictReader_row (fieldnames : list str) (row : record) :
  (length row <= length fieldnames)%nat ->
  rest (DictReader_row fieldnames row) = None.
Proof.
  intros Hle. unfold DictReader_row.
  destruct (Nat.ltb_spec (length fieldnames) (length row)); [lia|].
  by destruct (length row <? length fieldnames)%nat.
Qed.

(** ** One row *)

Lemma hash_row_inr (hash_func : hash_function) (column_name : str)
    (row row' : rowdict) :
  hash_row hash_func column_name row = inr row' ->
  exists v, cols row !! column_name = Some v
    /\ ((truthy v = false /\ row' = row)
        \/ exists s data,
             v = Some s /\ s ≠ [] /\ encode_utf8 s = Some data
             /\ row' = RowDict
                  (<[column_name := Some (hexdigest (hash_func data))]>
                     (cols row))
                  (rest row)).
Proof.
  unfold hash_row. destruct (cols row !! column_name) as [v|]; [|done].
  intros Hrow. exists v. split; [reflexivity|].
  destruct (truthy v) eqn:Htrue.
  - destruct v as [s|]; [|done].
    destruct (encode_utf8 s) as [data|] eqn:Henc; [|done].
    injection Hrow as <-. right. exists s, data. repeat split; try done.
    intros ->. done.
  - injection Hrow as <-. by left.
Qed.

Lemma hash_row_dom (hash_func : hash_function) (column_name : str)
    (row row' : rowdict) :
  hash_row hash_func column_name row = inr row' ->
  dom (cols row') = dom (cols row) /\ rest row' = rest row.
Proof.
  intros (v & Hv & [[_ ->]|(s & data & _ & _ & _ & ->)])%hash_row_inr;
    [done|]. simpl. split; [|done].
  rewrite dom_insert_L. apply (anti_symm (⊆)).
  - apply union_least; [|done]. apply singleton_subseteq_l.
    apply elem_of_dom. by exists v.
  - apply union_subseteq_r.
Qed.

Lemma wrong_fields_nil (fieldnames : list str) (d : rowdict) :
  dom (cols d) = list_to_set fieldnames -> rest d = None ->
  wrong_fields fieldnames d = [].
Proof.
  intros Hdom Hrest. unfold wrong_fields. rewrite Hrest, app_nil_r.
  replace (filter (fun key => key ∉ fieldnames) (elements (dom (cols d))))
    with (@nil str); [done|].
  symmetry. apply elem_of_nil_inv. intros key.
  rewrite list_elem_of_filter, elem_of_elements, Hdom, elem_of_list_to_set.
  tauto.
Qed.

Lemma dict_to_list_inr (fieldnames : list str) (d : rowdict)
    (fields : list (option str)) :
  dict_to_list fieldnames d = inr fields ->
  wrong_fields fieldnames d = []
  /\ fields = map (fun key => default (Some []) (cols d !! key)) fieldnames.
Proof.
  unfold dict_to_list. destruct (wrong_fields fieldnames d); [|done].
  by intros [= <-].
Qed.

Lemma dict_to_list_ok (fieldnames : list str) (d : rowdict) :
  dom (cols d) = list_to_set fieldnames -> rest d = None ->
  dict_to_list fieldnames d
  = inr (map (fun key => default (Some []) (cols d !! key)) fieldnames).
Proof.
  intros Hdom Hrest. unfold dict_to_list.
  by rewrite wrong_fields_nil.
Qed.

(** What a written record holds in each column: the value the dict handed
    to the writer binds to the name of that column. *)
Lemma transcode_record_inr (fieldnames : list str) (hash_func : hash_function)
    (column_name : str) (r out : record) :
  transcode_record fieldnames hash_func column_name r = inr out ->
  exists row',
    hash_row hash_func column_name (DictReader_row fieldnames r) = inr row'
    /\ length out = length fieldnames
    /\ forall j name, fieldnames !! j = Some name ->
         exists v, cols row' !! name = Some v
                   /\ out !! j = Some (csv_field v).
Proof.
  unfold transcode_record.
  destruct (hash_row _ _ _) as [e|row'] eqn:Hrow; [done|].
  destruct (dict_to_list fieldnames row') as [e|fields] eqn:Hlist; [done|].
  intros [= <-]. exists row'. split; [reflexivity|].
  apply dict_to_list_inr in Hlist as [_ ->].
  split; [by rewrite !length_map|].
  intros j name Hj.
  destruct (hash_row_dom _ _ _ _ Hrow) as [Hdom _].
  assert (is_Some (cols row' !! name)) as [v Hv].
  { apply elem_of_dom. rewrite Hdom, dom_DictReader_row.
    apply elem_of_list_to_set. by eapply list_elem_of_lookup_2. }
  exists v. split; [done|].
  change (map csv_field ?l) with (csv_field <$> l).
  change (map ?f fieldnames) with (f <$> fieldnames).
  rewrite !list_lookup_fmap, Hj. simpl. by rewrite Hv.
Qed.

(** ** The loop and the run, as functions of the input records *)

Lemma alter_lookup_insert (m : gmap str node) (path : str) (n : node)
    (f : node -> node) :
  m !! path = Some n -> alter f path m = <[path := f n]> m.
Proof.
  intros Hm. apply map_eq. intros k. destruct (decide (path = k)) as [<-|Hne].
  - by rewrite lookup_alter_eq, lookup_insert_eq, Hm.
  - by rewrite lookup_alter_ne, lookup_insert_ne.
Qed.

Lemma process_insert_id (s : process) (path : str) (acc : list record) :
  files s !! path = Some (Regular acc None) ->
  Process (<[path := Regular (acc ++ []) None]> (files s)) (stdout s) (stderr s)
  = s.
Proof.
  intros Hs. rewrite app_nil_r, insert_id by done. by destruct s.
Qed.

Lemma transcode_row_run (output_file : str) (fieldnames : list str)
    (hash_func : hash_function) (column_name : str) (r : record)
    (s : process) (acc : list record) :
  files s !! output_file = Some (Regular acc None) ->
  transcode_row output_file fieldnames hash_func column_name
    (DictReader_row fieldnames r) s
  = match transcode_record fieldnames hash_func column_name r with
    | inl e => (s, inl e)
    | inr out =>
        (Process (<[output_file := Regular (acc ++ [out]) None]> (files s))
                 (stdout s) (stderr s), inr tt)
    end.
Proof.
  intros Hs.
  unfold transcode_row, transcode_record, DictWriter_writerow, mbind, M_bind,
    lift, writer_writerow.
  destruct (hash_row _ _ _) as [e|row']; [reflexivity|].
  destruct (dict_to_list fieldnames row') as [e|fields]; [reflexivity|].
  by rewrite (alter_lookup_insert _ _ _ _ Hs).
Qed.

Lemma for_rows_run (output_file : str) (fieldnames : list str)
    (hash_func : hash_function) (column_name : str)
    (pending : list record) (read_error : option exn)
    (s : process) (acc : list record) :
  files s !! output_file = Some (Regular acc None) ->
  for_rows fieldnames
    (transcode_row output_file fieldnames hash_func column_name)
    pending read_error s
  = let t := transcode_rows fieldnames hash_func column_name pending read_error in
    (Process (<[output_file := Regular (acc ++ t.1) None]> (files s))
             (stdout s) (stderr s), t.2).
Proof.
  revert s acc. induction pending as [|r pending IH]; intros s acc Hs.
  - simpl. rewrite process_insert_id by done. by destruct read_error.
  - destruct r as [|c r]; [by apply IH|].
    cbn [for_rows transcode_rows]. unfold mbind, M_bind.
    rewrite (transcode_row_run _ _ _ _ _ _ acc) by done.
    destruct (transcode_record _ _ _ _) as [e|out]; simpl.
    + by rewrite process_insert_id.
    + rewrite (IH _ (acc ++ [out])) by apply lookup_insert_eq. simpl.
      by rewrite insert_insert_eq, <- app_assoc.
Qed.

Lemma dict_zip_self (fieldnames : list str) (name : str) :
  name ∈ fieldnames -> dict_zip fieldnames fieldnames !! name = Some (Some name).
Proof.
  unfold dict_zip. generalize (∅ : gmap str (option str)).
  induction fieldnames as [|x l IH]; intros d Hin;
    [by apply elem_of_nil in Hin|]. simpl.
  destruct (decide (name ∈ l)) as [Hl|Hl]; [by apply IH|].
  apply elem_of_cons in Hin as [->|?]; [|done].
  rewrite lookup_foldl_some_notin by done. apply lookup_insert_eq.
Qed.

(** [writeheader] writes the field names themselves. *)
Lemma DictWriter_writeheader_run (path : str) (fieldnames : list str)
    (s : process) (acc : list record) :
  files s !! path = Some (Regular acc None) ->
  DictWriter_writeheader path fieldnames s
  = (Process (<[path := Regular (acc ++ [fieldnames]) None]> (files s))
             (stdout s) (stderr s), inr tt).
Proof.
  intros Hs.
  unfold DictWriter_writeheader, DictWriter_writerow, mbind, M_bind, lift.
  rewrite dict_to_list_ok; simpl; [| |done].
  - assert (forall l : list str, (forall x, x ∈ l -> x ∈ fieldnames) ->
      map csv_field
        (map (fun key => default (Some [])
                           (dict_zip fieldnames fieldnames !! key)) l) = l)
      as Hmap.
    { induction l as [|x l IH]; intros Hl; [reflexivity|]. simpl.
      rewrite dict_zip_self by (apply Hl; left). simpl. f_equal.
      apply IH. intros y Hy. apply Hl. by right. }
    unfold writer_writerow. rewrite (alter_lookup_insert _ _ _ _ Hs). simpl.
    by rewrite Hmap.
  - rewrite dom_dict_zip, take_ge by lia. reflexivity.
Qed.

(** Once the algorithm is resolved, the header is read and holds the
    column, and the output can be opened, the run leaves in the output file
    the header and the records of [transcode_rows], ends the way
    [transcode_rows] ends, and touches nothing else. *)
Lemma hash_csv_column_try_run (input_file output_file column_name algorithm : str)
    (s : process) (hash_func : hash_function) (fieldnames : list str)
    (pending : list record) (read_error : option exn) :
  get_hash_function algorithm = inr hash_func ->
  files s !! input_file = Some (Regular (fieldnames :: pending) read_error) ->
  column_name ∈ fieldnames ->
  writable output_file s ->
  hash_csv_column_try input_file output_file column_name algorithm s
  = let t := transcode_rows fieldnames hash_func column_name pending read_error in
    (Process (<[output_file := Regular (fieldnames :: t.1) None]> (files s))
       (stdout s ++ match t.2 with
                    | inr _ => [success_message output_file column_name algorithm]
                    | inl _ => []
                    end)
       (stderr s),
     t.2).
Proof.
  intros Halg Hin Hcol Hout.
  unfold hash_csv_column_try, mbind, M_bind, lift, open_read.
  rewrite Halg, Hin. simpl. rewrite bool_decide_true by done. simpl.
  assert (open_write output_file s
          = (Process (<[output_file := Regular [] None]> (files s))
               (stdout s) (stderr s), inr tt)) as ->.
  { unfold open_write. destruct (files s !! output_file) as [[]|] eqn:Hf;
      try done. by destruct (Hout e). }
  rewrite (DictWriter_writeheader_run _ _ _ []) by apply lookup_insert_eq.
  simpl. rewrite insert_insert_eq.
  rewrite (for_rows_run _ _ _ _ _ _ _ [fieldnames]) by apply lookup_insert_eq.
  simpl. rewrite insert_insert_eq.
  destruct (transcode_rows _ _ _ _ _) as [rows [e|[]]]; simpl.
  - by rewrite app_nil_r.
  - reflexivity.
Qed.

(** Before the output file is opened the run can only stop with an
    exception, in the state it started from. *)
Lemma hash_csv_column_try_cases
    (input_file output_file column_name algorithm : str) (s : process) :
  (exists e,
     hash_csv_column_try input_file output_file column_name algorithm s
     = (s, inl e))
  \/ (exists hash_func fieldnames pending read_error,
        get_hash_function algorithm = inr hash_func
        /\ files s !! input_file
           = Some (Regular (fieldnames :: pending) read_error)
        /\ column_name ∈ fieldnames
        /\ writable output_file s).
Proof.
  unfold hash_csv_column_try, mbind, M_bind, lift, open_read.
  destruct (get_hash_function algorithm) as [e|hash_func] eqn:Halg;
    [left; by eexists|].
  destruct (files s !! input_file) as [[records read_error|e]|] eqn:Hin;
    [|left; by eexists..].
  destruct records as [|fieldnames pending]; simpl.
  { left. destruct read_error; by eexists. }
  destruct (decide (column_name ∈ fieldnames)) as [Hcol|Hcol].
  2: { left. rewrite bool_decide_false by done. by eexists. }
  destruct (files s !! output_file) as [[|e]|] eqn:Hout.
  2: { left. rewrite bool_decide_true by done. simpl.
       unfold open_write. rewrite Hout. by eexists. }
  all: right; exists hash_func, fieldnames, pending, read_error;
    repeat split; try done; intros e; by rewrite Hout.
Qed.

Lemma hash_csv_column_missing_column
    (input_file output_file column_name algorithm : str) (s : process)
    (hash_func : hash_function) (fieldnames : list str)
    (pending : list record) (read_error : option exn) :
  get_hash_function algorithm = inr hash_func ->
  files s !! input_file = Some (Regular (fieldnames :: pending) read_error) ->
  column_name ∉ fieldnames ->
  hash_csv_column_try input_file output_file column_name algorithm s
  = (s, inl (ValueError (lit "Column '" ++ column_name
                         ++ lit "' not found in CSV. Available columns: "
                         ++ join (lit ", ") fieldnames))).
Proof.
  intros Halg Hin Hcol.
  unfold hash_csv_column_try, mbind, M_bind, lift, open_read.
  rewrite Halg, Hin. simpl. by rewrite bool_decide_false.
Qed.

(** A run that fails leaves with status 1 and one more line on the error
    stream; it writes to no stream or file beyond what the [try] block
    did. *)
Lemma hash_csv_column_raise
    (input_file output_file column_name algorithm : str) (s s1 : process)
    (e : exn) :
  hash_csv_column_try input_file output_file column_name algorithm s
  = (s1, inl e) ->
  exists line,
    hash_csv_column input_file output_file column_name algorithm s
    = (Process (files s1) (stdout s1) (stderr s1 ++ [line]), Some 1%Z)
    /\ (forall m, e = ValueError m -> line = lit "Error: " ++ m).
Proof.
  intros Htry. unfold hash_csv_column. rewrite Htry.
  destruct e; eexists; (split; [reflexivity|]); by intros m' [= ->].
Qed.

(** A run that returns went through every step. *)
Lemma hash_csv_column_returns
    (input_file output_file column_name algorithm : str) (s s' : process) :
  hash_csv_column input_file output_file column_name algorithm s = (s', None) ->
  exists hash_func fieldnames pending rows,
    get_hash_function algorithm = inr hash_func
    /\ files s !! input_file = Some (Regular (fieldnames :: pending) None)
    /\ column_name ∈ fieldnames
    /\ writable output_file s
    /\ transcode_rows fieldnames hash_func column_name pending None
       = (rows, inr tt)
    /\ files s' = <[output_file := Regular (fieldnames :: rows) None]> (files s).
Proof.
  intros Hrun.
  destruct (hash_csv_column_try_cases input_file output_file column_name
              algorithm s)
    as [[e Htry]|(hash_func & fieldnames & pending & read_error
                  & Halg & Hin & Hcol & Hout)].
  - destruct (hash_csv_column_raise _ _ _ _ _ _ _ Htry) as (line & Heq & _).
    rewrite Heq in Hrun. done.
  - unfold hash_csv_column in Hrun.
    rewrite (hash_csv_column_try_run _ _ _ _ _ _ _ _ _ Halg Hin Hcol Hout)
      in Hrun.
    cbv zeta in Hrun.
    destruct (transcode_rows fieldnames hash_func column_name pending
                read_error) as [rows [e|[]]] eqn:Hrows; simpl in Hrun.
    + by destruct e.
    + injection Hrun as <-.
      assert (read_error = None) as ->.
      { clear -Hrows. revert rows Hrows.
        induction pending as [|r pending IH]; intros rows Hrows.
        - simpl in Hrows. by destruct read_error.
        - destruct r as [|c r]; [by eapply IH|].
          cbn [transcode_rows] in Hrows.
          destruct (transcode_record _ _ _ _); [done|].
          destruct (transcode_rows _ _ _ pending _) as [rows' res] eqn:Hrest.
          simpl in Hrows. injection Hrows as <- ->. by eapply IH. }
      exists hash_func, fieldnames, pending, rows. by repeat split.
Qed.



Lemma hash_row_falsy (hash_func : hash_function) (column_name : str)
    (row : rowdict) (v : option str) :
  cols row !! column_name = Some v -> truthy v = false ->
  hash_row hash_func column_name row = inr row.
Proof. intros Hv Hfalse. unfold hash_row. by rewrite Hv, Hfalse. Qed.


(** ** The transformation *)





(** C10. The loop body takes a row too short to reach the target column
    without raising: the reader binds the column to [None], which is not
    true, so the row is handed to the writer as it is and the record
    written has an empty field in the target column. *)
Theorem short_row_target_written_empty
    (output_file column_name : str) (fieldnames : list str)
    (hash_func : hash_function) (r : record) (j0 : nat)
    (s : process) (acc : list record) :
  (length r <= j0)%nat ->
  fieldnames !! j0 = Some column_name ->
  files s !! output_file = Some (Regular acc None) ->
  cols (DictReader_row fieldnames r) !! column_name = Some None
  /\ truthy None = false
  /\ hash_row hash_func column_name (DictReader_row fieldnames r)
     = inr (DictReader_row fieldnames r)
  /\ exists out,
       transcode_row output_file fieldnames hash_func column_name
         (DictReader_row fieldnames r) s
       = (Process (<[output_file := Regular (acc ++ [out]) None]> (files s))
                  (stdout s) (stderr s), inr tt)
       /\ length out = length fieldnames
       /\ forall j, fieldnames !! j = Some column_name -> out !! j = Some [].
Proof.
  intros Hshort Hcol Hs.
  pose proof (lookup_DictReader_row_missing _ _ _ _ Hshort Hcol) as Hnone.
  pose proof (hash_row_falsy hash_func _ _ _ Hnone eq_refl) as Hrow.
  split; [done|]. split; [done|]. split; [done|].
  pose proof (lookup_lt_Some _ _ _ Hcol) as Hlen.
  assert (transcode_record fieldnames hash_func column_name r
          = inr (map csv_field
                   (map (fun key => default (Some [])
                           (cols (DictReader_row fieldnames r) !! key))
                        fieldnames))) as Hrec.
  { unfold transcode_record. rewrite Hrow, dict_to_list_ok; [done|..].
    - apply dom_DictReader_row.
    - apply rest_DictReader_row. lia. }
  eexists. split; [|split].
  - rewrite (transcode_row_run _ _ _ _ _ _ acc) by done. by rewrite Hrec.
  - by rewrite !length_map.
  - intros j Hj.
    destruct (transcode_record_inr _ _ _ _ _ Hrec) as (row' & Hrow' & _ & Hf).
    rewrite Hrow in Hrow'. injection Hrow' as <-.
    destruct (Hf j column_name Hj) as (v & Hv & ->).
    rewrite Hnone in Hv. by injection Hv as <-.
Qed.

(** ** Failures *)

(** C5. When the header of the input does not hold the requested column
    (and the algorithm is a supported one, as it is for every value the
    command line accepts), the run ends with [sys.exit(1)] after printing
    on the error stream one line in which the requested name and each name
    of the header occur; nothing else changes. *)
Theorem missing_column_reported
    (input_file output_file column_name algorithm : str) (s : process)
    (hash_func : hash_function) (fieldnames : list str)
    (pending : list record) (read_error : option exn) :
  get_hash_function algorithm = inr hash_func ->
  files s !! input_file = Some (Regular (fieldnames :: pending) read_error) ->
  column_name ∉ fieldnames ->
  exists msg,
    hash_csv_column input_file output_file column_name algorithm s
    = (Process (files s) (stdout s) (stderr s ++ [lit "Error: " ++ msg]),
       Some 1%Z)
    /\ occurs_in column_name msg
    /\ forall name, name ∈ fieldnames -> occurs_in name msg.
Proof.
  intros Halg Hin Hcol.
  pose proof (hash_csv_column_missing_column _ output_file _ _ _ _ _ _ _
                Halg Hin Hcol) as Htry.
  eexists. split; [|split].
  - unfold hash_csv_column. rewrite Htry. reflexivity.
  - apply occurs_in_app_l, occurs_in_app_r, occurs_in_refl.
  - intros name Hname. do 3 apply occurs_in_app_l. by apply join_occurs.
Qed.

(** X15. Started from [main], where [argparse] has checked the algorithm,
    a run on an input whose header does not hold the requested column ends
    with exit status 1 after printing on the error stream one line in
    which the requested name and each name of the header occur; the file
    system and the standard output are unchanged. *)
Lemma main_missing_column (args : Namespace) (s : process)
    (fieldnames : list str) (pending : list record)
    (read_error : option exn) :
  algorithm args ∈ choices ->
  files s !! input_file args
  = Some (Regular (fieldnames :: pending) read_error) ->
  column_name args ∉ fieldnames ->
  exists msg,
    main args s
    = (Process (files s) (stdout s) (stderr s ++ [lit "Error: " ++ msg]), 1%Z)
    /\ occurs_in (column_name args) msg
    /\ forall name, name ∈ fieldnames -> occurs_in name msg.
Proof.
  intros [hash_func Halg]%get_hash_function_choice Hin Hcol.
  pose proof (hash_csv_column_missing_column _ (output_file args) _ _ _ _ _ _ _
                Halg Hin Hcol) as Htry.
  eexists. split; [|split].
  - unfold main, Path_exists, hash_csv_column.
    rewrite bool_decide_true by (rewrite Hin; by eexists). simpl.
    rewrite Htry. reflexivity.
  - apply occurs_in_app_l, occurs_in_app_r, occurs_in_refl.
  - intros name Hname. do 3 apply occurs_in_app_l. by apply join_occurs.
Qed.

(** C9. When the header of the input does not hold the requested column,
    the run ends with [sys.exit(1)] and the file system is the one it
    started from: in particular the output path names what it named
    before, a file with its old contents or nothing. *)
Theorem missing_column_leaves_output_untouched
    (input_file output_file column_name algorithm : str) (s : process)
    (fieldnames : list str) (pending : list record)
    (read_error : option exn) :
  files s !! input_file = Some (Regular (fieldnames :: pending) read_error) ->
  column_name ∉ fieldnames ->
  (hash_csv_column input_file output_file column_name algorithm s).2
  = Some 1%Z
  /\ files (hash_csv_column input_file output_file column_name algorithm s).1
     = files s
  /\ files (hash_csv_column input_file output_file column_name algorithm s).1
       !! output_file
     = files s !! output_file.
Proof.
  intros Hin Hcol.
  destruct (hash_csv_column_try_cases input_file output_file column_name
              algorithm s)
    as [[e Htry]|(hash_func & fieldnames' & pending' & read_error'
                  & _ & Hin' & Hcol' & _)].
  - destruct (hash_csv_column_raise _ _ _ _ _ _ _ Htry) as (line & -> & _).
    done.
  - rewrite Hin in Hin'. by injection Hin' as -> _ _.
Qed.

(** C6. When the input path names no file that can be opened for reading
    (nothing at all, or something [open] refuses), [main] exits with
    status 1 and the file system is the one it started from: no file has
    been created, truncated or written. *)
Theorem missing_input_exits_before_writing (args : Namespace) (s : process) :
  (forall records read_error,
     files s !! input_file args ≠ Some (Regular records read_error)) ->
  (main args s).2 = 1%Z
  /\ files (main args s).1 = files s
  /\ (files s !! input_file args = None ->
      main args s
      = (Process (files s) (stdout s)
           (stderr s ++ [lit "Error: Input file '" ++ input_file args
                         ++ lit "' does not exist"]), 1%Z)).
Proof.
  intros Hin. unfold main, Path_exists.
  destruct (files s !! input_file args) as [n|] eqn:Hfile in |- *.
  - rewrite bool_decide_true by (by eexists). simpl.
    destruct (hash_csv_column_try_cases (input_file args) (output_file args)
                (column_name args) (algorithm args) s)
      as [[e Htry]|(hash_func & fieldnames & pending & read_error
                    & _ & Hin' & _)].
    + destruct (hash_csv_column_raise _ _ _ _ _ _ _ Htry) as (line & -> & _).
      done.
    + exfalso. by eapply Hin.
  - rewrite bool_decide_false by (by intros [? ?]). done.
Qed.

(** ** Determinism *)


(** A successful run is repeatable wherever the output can be opened. *)
Lemma success_is_repeatable
    (input1 output1 input2 output2 column_name algorithm : str)
    (s1 s1' s2 : process) :
  files s1 !! input1 = files s2 !! input2 ->
  writable output2 s2 ->
  hash_csv_column input1 output1 column_name algorithm s1 = (s1', None) ->
  exists s2',
    hash_csv_column input2 output2 column_name algorithm s2 = (s2', None)
    /\ files s2' !! output2 = files s1' !! output1.
Proof.
  intros Hsame Hw
    (h1 & f1 & p1 & rows1 & Halg1 & Hin1 & Hcol1 & _ & Hrows1
     & ->)%hash_csv_column_returns.
  rewrite Hsame in Hin1. unfold hash_csv_column.
  rewrite (hash_csv_column_try_run _ _ _ _ _ _ _ _ _ Halg1 Hin1 Hcol1 Hw).
  cbv zeta. rewrite Hrows1. simpl. eexists. split; [reflexivity|].
  simpl. by rewrite !lookup_insert_eq.
Qed.

(** ** Success *)

Lemma encode_char_scalar (c : N) :
  is_scalar c = true -> is_Some (encode_char c).
Proof.
  unfold is_scalar, encode_char. intros Hc.
  assert (c < 0xD800 \/ (0xDFFF < c /\ c < 0x110000)) as Hrange.
  { apply orb_true_iff in Hc as [Hc|Hc].
    - left. by apply N.ltb_lt.
    - right. apply andb_true_iff in Hc as [Hlo Hhi].
      split; by apply N.ltb_lt. }
  clear Hc.
  destruct (c <? 0x80); [by eexists|].
  destruct (c <? 0x800); [by eexists|].
  destruct (N.leb_spec 0xD800 c) as [Hlo|Hlo];
    destruct (N.leb_spec c 0xDFFF) as [Hhi|Hhi]; simpl; [lia|..].
  all: destruct (c <? 0x10000); [by eexists|].
  all: destruct (N.ltb_spec c 0x110000) as [Hmax|Hmax]; [by eexists|lia].
Qed.

Lemma encode_utf8_scalar (s : str) :
  Forall (fun c => is_scalar c = true) s -> is_Some (encode_utf8 s).
Proof.
  induction 1 as [|c s Hc _ [bs IH]]; [by eexists|]. simpl.
  destruct (encode_char_scalar c Hc) as [b ->]. rewrite IH. by eexists.
Qed.

(** The strings of a row are fields of the record it was built from. *)
Lemma lookup_foldl_some_value (d : gmap str (option str))
    (keys values : list str) (k v : str) :
  foldl (fun d kv => <[kv.1 := Some kv.2]> d) d (zip keys values) !! k
  = Some (Some v) ->
  v ∈ values \/ d !! k = Some (Some v).
Proof.
  revert d values. induction keys as [|x keys IH]; intros d values Hk;
    [by right|].
  destruct values as [|w values]; [by right|]. simpl in Hk.
  destruct (IH _ _ Hk) as [Hin|Hd]; [left; by right|].
  destruct (decide (x = k)) as [->|Hne].
  - rewrite lookup_insert_eq in Hd. injection Hd as ->. left. by left.
  - rewrite lookup_insert_ne in Hd by done. by right.
Qed.

Lemma DictReader_row_value (fieldnames : list str) (r : record) (k v : str) :
  cols (DictReader_row fieldnames r) !! k = Some (Some v) -> v ∈ r.
Proof.
  assert (forall d : gmap str (option str),
            d = dict_zip fieldnames r -> d !! k = Some (Some v) -> v ∈ r)
    as Hzip.
  { intros d -> Hd. unfold dict_zip in Hd.
    by destruct (lookup_foldl_some_value _ _ _ _ _ Hd) as [?|?]. }
  unfold DictReader_row.
  destruct (length fieldnames <? length r)%nat; simpl; [by apply Hzip|].
  destruct (length r <? length fieldnames)%nat; simpl; [|by apply Hzip].
  rewrite lookup_foldl_none. destruct (decide _); [done|by apply Hzip].
Qed.

Lemma transcode_record_ok (fieldnames : list str) (hash_func : hash_function)
    (column_name : str) (r : record) :
  column_name ∈ fieldnames -> well_formed fieldnames r ->
  exists out, transcode_record fieldnames hash_func column_name r = inr out.
Proof.
  intros Hcol [Hlen Hvalid].
  assert (exists row',
            hash_row hash_func column_name (DictReader_row fieldnames r)
            = inr row') as [row' Hrow].
  { destruct (DictReader_row_is_Some fieldnames r _ Hcol) as [v Hv].
    unfold hash_row. rewrite Hv.
    destruct (truthy v); [|by eexists]. destruct v as [s|]; [|by eexists].
    destruct (encode_utf8_scalar s) as [data ->]; [|by eexists].
    apply DictReader_row_value in Hv.
    by apply (proj1 (Forall_forall _ _) Hvalid). }
  destruct (hash_row_dom _ _ _ _ Hrow) as [Hdom Hrest].
  unfold transcode_record. rewrite Hrow, dict_to_list_ok; [by eexists|..].
  - by rewrite Hdom, dom_DictReader_row.
  - by rewrite Hrest, rest_DictReader_row.
Qed.



(** ** Partial output *)



(** ** The run in full, once the header is read *)

Lemma hash_csv_column_try_header
    (input_file output_file column_name algorithm : str) (s : process)
    (fieldnames : list str) (pending : list record)
    (read_error : option exn) :
  files s !! input_file = Some (Regular (fieldnames :: pending) read_error) ->
  hash_csv_column_try input_file output_file column_name algorithm s
  = match get_hash_function algorithm with
    | inl e => (s, inl e)
    | inr hash_func =>
        if bool_decide (column_name ∈ fieldnames) then
          match files s !! output_file with
          | Some (Unopenable e) => (s, inl e)
          | _ =>
              let t := transcode_rows fieldnames hash_func column_name pending
                         read_error in
              (Process
                 (<[output_file := Regular (fieldnames :: t.1) None]> (files s))
                 (stdout s
                  ++ match t.2 with
                     | inr _ =>
                         [success_message output_file column_name algorithm]
                     | inl _ => []
                     end)
                 (stderr s),
               t.2)
          end
        else
          (s, inl (ValueError
                     (lit "Column '" ++ column_name
                      ++ lit "' not found in CSV. Available columns: "
                      ++ join (lit ", ") fieldnames)))
    end.
Proof.
  intros Hin.
  destruct (get_hash_function algorithm) as [e|hash_func] eqn:Halg.
  { unfold hash_csv_column_try, mbind, M_bind, lift. by rewrite Halg. }
  destruct (decide (column_name ∈ fieldnames)) as [Hcol|Hcol].
  2: { rewrite bool_decide_false by done.
       by apply (hash_csv_column_missing_column _ _ _ _ _ hash_func _ pending
                   read_error). }
  rewrite bool_decide_true by done.
  destruct (files s !! output_file) as [[records err|e]|] eqn:Hout.
  - apply hash_csv_column_try_run; try done. intros e. by rewrite Hout.
  - unfold hash_csv_column_try, mbind, M_bind, lift, open_read.
    rewrite Halg, Hin. simpl. rewrite bool_decide_true by done. simpl.
    unfold open_write. by rewrite Hout.
  - apply hash_csv_column_try_run; try done. intros e. by rewrite Hout.
Qed.

(** The line a failed run prints starts with [Error: ]. *)
Lemma hash_csv_column_raise_line
    (input_file output_file column_name algorithm : str) (s s1 : process)
    (e : exn) :
  hash_csv_column_try input_file output_file column_name algorithm s
  = (s1, inl e) ->
  exists text,
    hash_csv_column input_file output_file column_name algorithm s
    = (Process (files s1) (stdout s1) (stderr s1 ++ [lit "Error: " ++ text]),
       Some 1%Z).
Proof.
  intros Htry. unfold hash_csv_column. rewrite Htry.
  destruct e as [m|m|m|m].
  - exists (lit "File not found - " ++ m). reflexivity.
  - by exists m.
  - by exists m.
  - by exists m.
Qed.

(** The loop sees the data rows only. *)
Lemma transcode_rows_data_rows (fieldnames : list str)
    (hash_func : hash_function) (column_name : str) (pending : list record)
    (read_error : option exn) :
  transcode_rows fieldnames hash_func column_name (data_rows pending) read_error
  = transcode_rows fieldnames hash_func column_name pending read_error.
Proof.
  induction pending as [|r pending IH]; [reflexivity|].
  destruct r as [|c r]; unfold data_rows.
  - by rewrite filter_cons_False by (intros Hne; by apply Hne).
  - rewrite filter_cons_True by done. cbn [transcode_rows].
    fold (data_rows pending). by rewrite IH.
Qed.



(** ** Further properties of the three functions *)

(** X1. An algorithm name that is none of the six, up to case, stops
    [hash_csv_column] before any file is looked at: whatever the paths
    name, the function leaves through [sys.exit(1)], the file system and
    the standard output are unchanged, and the one line printed on the
    error stream holds the name as it was given and the six names. *)
Theorem unsupported_algorithm_exits
    (input_file output_file column_name algorithm : str) (s : process) :
  str_lower algorithm ∉ dict_keys algorithms ->
  exists msg,
    hash_csv_column input_file output_file column_name algorithm s
    = (Process (files s) (stdout s) (stderr s ++ [lit "Error: " ++ msg]),
       Some 1%Z)
    /\ occurs_in algorithm msg
    /\ forall name, name ∈ dict_keys algorithms -> occurs_in name msg.
Proof.
  intros Hout. unfold hash_csv_column, hash_csv_column_try, mbind, M_bind, lift,
    get_hash_function.
  rewrite dict_get_None by done.
  exists (lit "Unsupported algorithm: " ++ algorithm ++ lit ". Supported: "
          ++ join (lit ", ") (dict_keys algorithms)).
  split; [reflexivity|]. split.
  - apply occurs_in_app_l, occurs_in_app_r, occurs_in_refl.
  - intros name Hname. do 3 apply occurs_in_app_l. by apply join_occurs.
Qed.

(** X2. Called with a supported algorithm and an input path that names
    nothing, [hash_csv_column] takes the handler of [FileNotFoundError]:
    it prints [Error: File not found - ] followed by the text of the
    exception, leaves through [sys.exit(1)], and creates no file, the
    output file included. *)
Theorem missing_input_file_not_found
    (input_file output_file column_name algorithm : str) (s : process)
    (hash_func : hash_function) :
  get_hash_function algorithm = inr hash_func ->
  files s !! input_file = None ->
  hash_csv_column input_file output_file column_name algorithm s
  = (Process (files s) (stdout s)
       (stderr s ++ [lit "Error: File not found - "
                     ++ no_such_file_str input_file]),
     Some 1%Z).
Proof.
  intros Halg Hin.
  unfold hash_csv_column, hash_csv_column_try, mbind, M_bind, lift, open_read.
  by rewrite Halg, Hin.
Qed.


(** X6. Whatever happens, [main] changes nothing in the file system but
    what the output path names: every other path, the input path among
    them when it differs from the output path, names after the run what it
    named before. *)
Theorem only_output_path_changes (args : Namespace) (s : process)
    (path : str) :
  path ≠ output_file args ->
  files (main args s).1 !! path = files s !! path.
Proof.
  intros Hpath. unfold main.
  destruct (Path_exists (input_file args) s); simpl; [|done].
  destruct (hash_csv_column_try_cases (input_file args) (output_file args)
              (column_name args) (algorithm args) s)
    as [[e Htry]|(hash_func & fieldnames & pending & read_error
                  & Halg & Hin & Hcol & Hout)].
  - by destruct (hash_csv_column_raise_line _ _ _ _ _ _ _ Htry) as [text ->].
  - unfold hash_csv_column.
    rewrite (hash_csv_column_try_run _ _ _ _ _ _ _ _ _ Halg Hin Hcol Hout).
    cbv zeta.
    destruct (transcode_rows _ _ _ _ _) as [rows [e|[]]]; simpl.
    + destruct e; simpl; by rewrite lookup_insert_ne.
    + by rewrite lookup_insert_ne.
Qed.

(** X8. An input file without a single record has no header: with a
    supported algorithm the run stops at the membership test with the
    [TypeError] of [in None], leaves through [sys.exit(1)] with that text
    after [Error: ] on the error stream, and does not create the output
    file. *)
Theorem empty_input_rejected
    (input_file output_file column_name algorithm : str) (s : process)
    (hash_func : hash_function) :
  get_hash_function algorithm = inr hash_func ->
  files s !! input_file = Some (Regular [] None) ->
  hash_csv_column input_file output_file column_name algorithm s
  = (Process (files s) (stdout s)
       (stderr s ++ [lit "Error: " ++ none_not_iterable_str]),
     Some 1%Z).
Proof.
  intros Halg Hin.
  unfold hash_csv_column, hash_csv_column_try, mbind, M_bind, lift, open_read.
  by rewrite Halg, Hin.
Qed.

(** X14. When the output path cannot be opened for writing, the run stops
    there although the input was opened and its header read: it leaves
    through [sys.exit(1)] with one line on the error stream and writes
    nothing. *)
Theorem unopenable_output_nothing_written
    (input_file output_file column_name algorithm : str) (s : process)
    (hash_func : hash_function) (fieldnames : list str)
    (pending : list record) (read_error : option exn) (e : exn) :
  get_hash_function algorithm = inr hash_func ->
  files s !! input_file = Some (Regular (fieldnames :: pending) read_error) ->
  column_name ∈ fieldnames ->
  files s !! output_file = Some (Unopenable e) ->
  exists text,
    hash_csv_column input_file output_file column_name algorithm s
    = (Process (files s) (stdout s) (stderr s ++ [lit "Error: " ++ text]),
       Some 1%Z)
    /\ occurs_in (exn_str e) text.
Proof.
  intros Halg Hin Hcol Hout.
  pose proof (hash_csv_column_try_header _ output_file column_name algorithm
                _ _ _ _ Hin) as Htry.
  rewrite Halg, bool_decide_true, Hout in Htry by done.
  unfold hash_csv_column. rewrite Htry.
  destruct e as [m|m|m|m].
  - exists (lit "File not found - " ++ m). split; [reflexivity|].
    apply occurs_in_app_l, occurs_in_refl.
  - exists m. split; [reflexivity|]. apply occurs_in_refl.
  - exists m. split; [reflexivity|]. apply occurs_in_refl.
  - exists m. split; [reflexivity|]. apply occurs_in_refl.
Qed.

(** X10. Each value the command line accepts for [--algorithm] is a key of
    the table of [get_hash_function] as it stands, so that a run started
    by [main] always resolves its algorithm, to the function bound to
    that very name. *)
Theorem choices_resolve (name : str) :
  name ∈ choices ->
  exists hash_func,
    (name, hash_func) ∈ algorithms
    /\ get_hash_function name = inr hash_func.
Proof.
  unfold choices. rewrite !elem_of_cons, elem_of_nil.
  intros [->|[->|[->|[->|[->|[->|[]]]]]]]; eexists;
    (split; [|reflexivity]); unfold algorithms.
  - apply list_elem_of_here.
  - apply list_elem_of_further, list_elem_of_here.
  - do 2 apply list_elem_of_further. apply list_elem_of_here.
  - do 3 apply list_elem_of_further. apply list_elem_of_here.
  - do 4 apply list_elem_of_further. apply list_elem_of_here.
  - do 5 apply list_elem_of_further. apply list_elem_of_here.
Qed.



Lemma lookup_foldl_some_last (d : gmap str (option str))
    (keys values : list str) (k : nat) (name v : str) :
  keys !! k = Some name ->
  (forall k', (k < k')%nat -> keys !! k' ≠ Some name) ->
  values !! k = Some v ->
  foldl (fun d kv => <[kv.1 := Some kv.2]> d) d (zip keys values) !! name
  = Some (Some v).
Proof.
  revert d values k.
  induction keys as [|x keys IH]; intros d values k Hk Hlast Hv; [done|].
  destruct values as [|v0 values]; [done|].
  destruct k as [|k]; simpl in *.
  - injection Hk as ->. injection Hv as ->.
    rewrite lookup_foldl_some_notin; [apply lookup_insert_eq|].
    intros [i Hi]%list_elem_of_lookup_1. apply (Hlast (S i)); [lia|done].
  - apply (IH _ _ k); try done.
    intros k' Hk'. apply (Hlast (S k')). lia.
Qed.

(** The value of a row under a name is the field at the last position of
    that name in the header, or [None] if the row ends before it. *)
Lemma lookup_DictReader_row_last (fieldnames : list str) (r : record)
    (k : nat) (name : str) :
  fieldnames !! k = Some name ->
  (forall k', (k < k')%nat -> fieldnames !! k' ≠ Some name) ->
  cols (DictReader_row fieldnames r) !! name = Some (r !! k).
Proof.
  intros Hk Hlast. pose proof (lookup_lt_Some _ _ _ Hk) as Hlen.
  destruct (decide (length r <= k)%nat) as [Hshort|Hin].
  { rewrite (lookup_DictReader_row_missing _ _ k) by done.
    by rewrite lookup_ge_None_2. }
  destruct (lookup_lt_is_Some_2 r k) as [v Hv]; [lia|].
  assert (dict_zip fieldnames r !! name = Some (Some v)) as Hzip.
  { unfold dict_zip. by apply (lookup_foldl_some_last _ _ _ k). }
  rewrite Hv. unfold DictReader_row.
  destruct (length fieldnames <? length r)%nat; simpl; [done|].
  destruct (length r <? length fieldnames)%nat; simpl; [|done].
  rewrite lookup_foldl_none, decide_False; [done|].
  intros [i Hi]%list_elem_of_lookup_1. rewrite lookup_drop in Hi.
  apply (Hlast (length r + i)%nat); [lia|done].
Qed.






(** X12. With a name that occurs several times in the header, the loop
    body works on the field under the last occurrence.  For a well-formed
    record, every column of a name other than the target is written with
    the field at the last position of that name (empty if the record ends
    before it); every column of the target name is written with the digest
    of the field at the last position of the target name if that field is
    a non-empty string, and empty otherwise.  For a name that occurs once
    this is the field of the column itself. *)
Theorem repeated_name_last_field
    (output_file column_name : str) (fieldnames : list str)
    (hash_func : hash_function) (r : record) (s : process)
    (acc : list record) (j k : nat) (name : str) :
  files s !! output_file = Some (Regular acc None) ->
  column_name ∈ fieldnames ->
  well_formed fieldnames r ->
  fieldnames !! j = Some name ->
  fieldnames !! k = Some name ->
  (forall k', (k < k')%nat -> fieldnames !! k' ≠ Some name) ->
  exists out,
    transcode_row output_file fieldnames hash_func column_name
      (DictReader_row fieldnames r) s
    = (Process (<[output_file := Regular (acc ++ [out]) None]> (files s))
               (stdout s) (stderr s), inr tt)
    /\ (name ≠ column_name -> out !! j = Some (default [] (r !! k)))
    /\ (name = column_name ->
        match r !! k with
        | Some (c :: v) =>
            exists data, encode_utf8 (c :: v) = Some data
                         /\ out !! j = Some (hexdigest (hash_func data))
        | _ => out !! j = Some []
        end).
Proof.
  intros Hs Hcol Hwf Hj Hk Hlast.
  pose proof (lookup_DictReader_row_last fieldnames r k name Hk Hlast) as Hvalue.
  destruct (transcode_record_ok fieldnames hash_func column_name r Hcol Hwf)
    as [out Hrec].
  exists out. split; [|split].
  - rewrite (transcode_row_run _ _ _ _ _ _ acc) by done. by rewrite Hrec.
  - intros Hne.
    destruct (transcode_record_inr _ _ _ _ _ Hrec) as (row' & Hrow & _ & Hf).
    destruct (Hf j name Hj) as (v & Hv & ->).
    assert (cols row' !! name = cols (DictReader_row fieldnames r) !! name)
      as Hsame.
    { destruct (hash_row_inr _ _ _ _ Hrow)
        as (v0 & _ & [[_ ->]|(s0 & data & _ & _ & _ & ->)]); [done|].
      simpl. by rewrite lookup_insert_ne. }
    rewrite Hsame, Hvalue in Hv. injection Hv as <-. by destruct (r !! k).
  - intros ->.
    destruct (transcode_record_inr _ _ _ _ _ Hrec) as (row' & Hrow & _ & Hf).
    destruct (Hf j column_name Hj) as (v & Hv & ->).
    destruct (hash_row_inr _ _ _ _ Hrow)
      as (v0 & Hv0 & [[Hfalse ->]|(s0 & data & -> & Hne & Henc & ->)]).
    + rewrite Hvalue in Hv0, Hv. injection Hv0 as <-. injection Hv as <-.
      destruct (r !! k) as [[|c w]|]; [done|by simpl in Hfalse|done].
    + rewrite Hvalue in Hv0. injection Hv0 as ->.
      simpl in Hv. rewrite lookup_insert_eq in Hv. injection Hv as <-.
      destruct s0 as [|c w]; [done|]. by exists data.
Qed.

(** X13. Blank records after the header do not count: a run on a file
    and a run on the same file without its blank records end with the
    same status, the same output file and the same lines on the two
    streams. *)
Theorem blank_records_dropped
    (input_file output_file column_name algorithm : str) (s : process)
    (fieldnames : list str) (pending : list record)
    (read_error : option exn) :
  input_file ≠ output_file ->
  files s !! input_file = Some (Regular (fieldnames :: pending) read_error) ->
  let s0 :=
    Process (<[input_file := Regular (fieldnames :: data_rows pending)
                               read_error]> (files s))
            (stdout s) (stderr s) in
  let run := hash_csv_column input_file output_file column_name algorithm s in
  let run0 := hash_csv_column input_file output_file column_name algorithm s0 in
  run0.2 = run.2
  /\ files run0.1 !! output_file = files run.1 !! output_file
  /\ stdout run0.1 = stdout run.1
  /\ stderr run0.1 = stderr run.1.
Proof.
  intros Hpaths Hin s0 run run0. subst run run0.
  pose proof (hash_csv_column_try_header _ output_file column_name algorithm
                _ _ _ _ Hin) as Htry.
  assert (files s0 !! input_file
          = Some (Regular (fieldnames :: data_rows pending) read_error))
    as Hin0 by apply lookup_insert_eq.
  pose proof (hash_csv_column_try_header _ output_file column_name algorithm
                _ _ _ _ Hin0) as Htry0.
  assert (files s0 !! output_file = files s !! output_file) as Hout0.
  { subst s0. simpl. by rewrite lookup_insert_ne. }
  rewrite Hout0 in Htry0.
  unfold hash_csv_column. rewrite Htry, Htry0.
  destruct (get_hash_function algorithm) as [e|hash_func].
  { by destruct e. }
  destruct (bool_decide (column_name ∈ fieldnames)); [|done].
  rewrite transcode_rows_data_rows.
  cbv zeta.
  destruct (transcode_rows fieldnames hash_func column_name pending
              read_error) as [rows [e'|[]]];
    destruct (files s !! output_file) as [[records err|e]|] eqn:Hout;
    try destruct e'; try destruct e; simpl;
    rewrite ?lookup_insert_eq, ?lookup_insert_ne by done; done.
Qed.

(** ** Encodings *)

Lemma to_N_byte_of_N (n : N) : n < 256 -> Byte.to_N (byte_of_N n) = n.
Proof.
  intros Hn. unfold byte_of_N.
  change 255 with (N.ones 8). rewrite N.land_ones, N.mod_small by done.
  destruct (Byte.of_N n) as [b|] eqn:Hb.
  - by apply Byte.to_of_N.
  - apply Byte.of_N_None_iff in Hb. lia.
Qed.

Lemma land_shiftl_low (t j y : N) : y < 2 ^ j -> N.land (N.shiftl t j) y = 0.
Proof.
  intros Hy. apply N.bits_inj_0. intros n. rewrite N.land_spec.
  destruct (N.lt_ge_cases n j) as [Hn|Hn].
  - by rewrite N.shiftl_spec_low.
  - replace (N.testbit y n) with false; [apply andb_false_r|].
    symmetry. destruct (N.eq_dec y 0) as [->|Hy0]; [apply N.bits_0|].
    apply N.bits_above_log2.
    assert (N.log2 y < j) by (apply N.log2_lt_pow2; lia). lia.
Qed.

Lemma lor_tag (t j y : N) :
  y < 2 ^ j -> N.lor (N.shiftl t j) y = t * 2 ^ j + y.
Proof.
  intros Hy. rewrite <- N.lxor_lor by (by apply land_shiftl_low).
  rewrite <- N.add_nocarry_lxor by (by apply land_shiftl_low).
  by rewrite N.shiftl_mul_pow2.
Qed.

Lemma land_tag (t j y : N) :
  y < 2 ^ j -> N.land (t * 2 ^ j + y) (N.ones j) = y.
Proof.
  intros Hy. rewrite N.land_ones, N.add_comm, N.Div0.mod_add.
  by apply N.mod_small.
Qed.

Lemma tag_byte (T t j y : N) :
  T = t * 2 ^ j -> y < 2 ^ j -> T + y < 256 ->
  Byte.to_N (byte_of_N (N.lor T y)) = T + y.
Proof.
  intros -> Hy Hlt.
  assert (N.lor (t * 2 ^ j) y = t * 2 ^ j + y) as ->.
  { by rewrite <- (lor_tag t j y Hy), N.shiftl_mul_pow2. }
  by apply to_N_byte_of_N.
Qed.

Lemma untag (T M t j y : N) :
  T = t * 2 ^ j -> M = N.ones j -> y < 2 ^ j -> N.land (T + y) M = y.
Proof. intros -> -> Hy. by apply land_tag. Qed.

Lemma shiftr_land_ones (c k j : N) :
  N.land (N.shiftr c k) (N.ones j) = (c / 2 ^ k) mod 2 ^ j.
Proof. by rewrite N.land_ones, N.shiftr_div_pow2. Qed.

Lemma decode_encode_char (c : N) (b : bytes) :
  encode_char c = Some b -> decode_char b = Some (c, []).
Proof.
  assert (N.land c 0x3F = c mod 64) as E0.
  { change 0x3F with (N.ones 6). by rewrite N.land_ones. }
  assert (N.land (N.shiftr c 6) 0x3F = (c / 64) mod 64) as E6.
  { change 0x3F with (N.ones 6). by rewrite shiftr_land_ones. }
  assert (N.land (N.shiftr c 12) 0x3F = (c / 4096) mod 64) as E12.
  { change 0x3F with (N.ones 6). by rewrite shiftr_land_ones. }
  assert (N.shiftr c 6 = c / 64) as S6 by (by rewrite N.shiftr_div_pow2).
  assert (N.shiftr c 12 = c / 4096) as S12 by (by rewrite N.shiftr_div_pow2).
  assert (N.shiftr c 18 = c / 262144) as S18
    by (by rewrite N.shiftr_div_pow2).
  pose proof (N.div_mod c 64 ltac:(lia)) as D0.
  pose proof (N.div_mod (c / 64) 64 ltac:(lia)) as D6.
  pose proof (N.div_mod (c / 4096) 64 ltac:(lia)) as D12.
  pose proof (N.Div0.div_div c 64 64) as Q12. change (64 * 64) with 4096 in Q12.
  pose proof (N.Div0.div_div c 4096 64) as Q18.
  change (4096 * 64) with 262144 in Q18.
  rewrite Q12 in D6. rewrite Q18 in D12.
  pose proof (N.mod_lt c 64 ltac:(lia)) as L0.
  pose proof (N.mod_lt (c / 64) 64 ltac:(lia)) as L6.
  pose proof (N.mod_lt (c / 4096) 64 ltac:(lia)) as L12.
  unfold encode_char. rewrite E0, E6, E12, S6, S12, S18.
  destruct (N.ltb_spec c 0x80) as [H1|H1].
  { intros [= <-]. unfold decode_char.
    rewrite to_N_byte_of_N by lia.
    by destruct (N.ltb_spec c 0x80); [|lia]. }
  destruct (N.ltb_spec c 0x800) as [H2|H2].
  { intros [= <-].
    unfold decode_char.
    rewrite (tag_byte 0xC0 6 5), (tag_byte 0x80 2 6);
      [|done|change (2 ^ 6) with 64; lia|lia|done|change (2 ^ 5) with 32; lia
       |lia].
    destruct (N.ltb_spec (0xC0 + c / 64) 0x80); [lia|].
    destruct (N.ltb_spec (0xC0 + c / 64) 0xC0); [lia|].
    destruct (N.ltb_spec (0xC0 + c / 64) 0xE0); [|lia].
    rewrite (untag 0xC0 0x1F 6 5), (untag 0x80 0x3F 2 6);
      [|done|done|change (2 ^ 6) with 64; lia|done|done
       |change (2 ^ 5) with 32; lia].
    rewrite lor_tag by (change (2 ^ 6) with 64; lia).
    change (2 ^ 6) with 64. do 2 f_equal. lia. }
  destruct ((0xD800 <=? c) && (c <=? 0xDFFF)); [done|].
  destruct (N.ltb_spec c 0x10000) as [H3|H3].
  { intros [= <-].
    unfold decode_char.
    rewrite (tag_byte 0xE0 14 4), !(tag_byte 0x80 2 6);
      [|done|change (2 ^ 6) with 64; lia|lia
       |done|change (2 ^ 6) with 64; lia|lia
       |done|change (2 ^ 4) with 16; lia|lia].
    destruct (N.ltb_spec (0xE0 + c / 4096) 0x80); [lia|].
    destruct (N.ltb_spec (0xE0 + c / 4096) 0xC0); [lia|].
    destruct (N.ltb_spec (0xE0 + c / 4096) 0xE0); [lia|].
    destruct (N.ltb_spec (0xE0 + c / 4096) 0xF0); [|lia].
    rewrite (untag 0xE0 0x0F 14 4), !(untag 0x80 0x3F 2 6);
      [|done|done|change (2 ^ 6) with 64; lia
       |done|done|change (2 ^ 6) with 64; lia
       |done|done|change (2 ^ 4) with 16; lia].
    rewrite (lor_tag _ 6) by (change (2 ^ 6) with 64; lia).
    rewrite (lor_tag _ 12) by (change (2 ^ 6) with 64; change (2 ^ 12) with 4096; lia).
    change (2 ^ 6) with 64. change (2 ^ 12) with 4096. do 2 f_equal. lia. }
  destruct (N.ltb_spec c 0x110000) as [H4|H4]; [|done].
  intros [= <-].
  unfold decode_char.
  rewrite (tag_byte 0xF0 30 3), !(tag_byte 0x80 2 6);
    [|done|change (2 ^ 6) with 64; lia|lia
     |done|change (2 ^ 6) with 64; lia|lia
     |done|change (2 ^ 6) with 64; lia|lia
     |done|change (2 ^ 3) with 8; lia|lia].
  destruct (N.ltb_spec (0xF0 + c / 262144) 0x80); [lia|].
  destruct (N.ltb_spec (0xF0 + c / 262144) 0xC0); [lia|].
  destruct (N.ltb_spec (0xF0 + c / 262144) 0xE0); [lia|].
  destruct (N.ltb_spec (0xF0 + c / 262144) 0xF0); [lia|].
  rewrite (untag 0xF0 0x07 30 3), !(untag 0x80 0x3F 2 6);
    [|done|done|change (2 ^ 6) with 64; lia
     |done|done|change (2 ^ 6) with 64; lia
     |done|done|change (2 ^ 6) with 64; lia
     |done|done|change (2 ^ 3) with 8; lia].
  rewrite (lor_tag _ 6) by (change (2 ^ 6) with 64; lia).
  rewrite (lor_tag _ 12)
    by (change (2 ^ 6) with 64; change (2 ^ 12) with 4096; lia).
  rewrite (lor_tag _ 18)
    by (change (2 ^ 6) with 64; change (2 ^ 12) with 4096;
        change (2 ^ 18) with 262144; lia).
  change (2 ^ 6) with 64. change (2 ^ 12) with 4096.
  change (2 ^ 18) with 262144. do 2 f_equal. lia.
Qed.

Lemma decode_char_app (b rest t : bytes) (c : N) :
  decode_char b = Some (c, t) -> decode_char (b ++ rest) = Some (c, t ++ rest).
Proof.
  unfold decode_char. destruct b as [|b0 b]; [done|]. simpl.
  destruct (Byte.to_N b0 <? 0x80); [by intros [= <- <-]|].
  destruct (Byte.to_N b0 <? 0xC0); [done|].
  destruct (Byte.to_N b0 <? 0xE0).
  { destruct b as [|b1 b]; [done|]. by intros [= <- <-]. }
  destruct (Byte.to_N b0 <? 0xF0).
  { destruct b as [|b1 [|b2 b]]; try done. by intros [= <- <-]. }
  destruct b as [|b1 [|b2 [|b3 b]]]; try done. by intros [= <- <-].
Qed.

Lemma decode_encode_char_app (c : N) (b rest : bytes) :
  encode_char c = Some b -> decode_char (b ++ rest) = Some (c, rest).
Proof.
  intros Hb. by rewrite (decode_char_app b rest [] c (decode_encode_char c b Hb)).
Qed.

(** Distinct strings have distinct UTF-8 encodings. *)
Lemma encode_utf8_inj (s1 s2 : str) (d : bytes) :
  encode_utf8 s1 = Some d -> encode_utf8 s2 = Some d -> s1 = s2.
Proof.
  revert s2 d. induction s1 as [|c1 s1 IH]; intros [|c2 s2] d H1 H2; simpl in *.
  - done.
  - injection H1 as <-.
    destruct (encode_char c2) as [b2|] eqn:Hb2; [|done].
    destruct (encode_utf8 s2) as [d2|]; [|done]. injection H2 as H2.
    apply decode_encode_char in Hb2. by destruct b2.
  - injection H2 as <-.
    destruct (encode_char c1) as [b1|] eqn:Hb1; [|done].
    destruct (encode_utf8 s1) as [d1|]; [|done]. injection H1 as H1.
    apply decode_encode_char in Hb1. by destruct b1.
  - destruct (encode_char c1) as [b1|] eqn:Hb1; [|done].
    destruct (encode_utf8 s1) as [d1|] eqn:Hd1; [|done].
    destruct (encode_char c2) as [b2|] eqn:Hb2; [|done].
    destruct (encode_utf8 s2) as [d2|] eqn:Hd2; [|done].
    injection H1 as <-. injection H2 as H2.
    pose proof (decode_encode_char_app c1 b1 d1 Hb1) as Hdec1.
    pose proof (decode_encode_char_app c2 b2 d2 Hb2) as Hdec2.
    rewrite H2, Hdec1 in Hdec2. injection Hdec2 as -> ->.
    f_equal. by apply (IH s2 d2).
Qed.

Lemma hex_digit_inj (n m : N) :
  n < 16 -> m < 16 -> hex_digit n = hex_digit m -> n = m.
Proof.
  unfold hex_digit. intros Hn Hm.
  destruct (N.ltb_spec n 10), (N.ltb_spec m 10); lia.
Qed.

(** Distinct digests have distinct hexadecimal forms. *)
Lemma hexdigest_inj (d1 d2 : bytes) : hexdigest d1 = hexdigest d2 -> d1 = d2.
Proof.
  revert d2. induction d1 as [|b1 d1 IH]; intros [|b2 d2] Heq; try done.
  simpl in Heq. injection Heq as Hhi Hlo Hrest.
  pose proof (Byte.to_N_bounded b1) as Hb1.
  pose proof (Byte.to_N_bounded b2) as Hb2.
  apply hex_digit_inj in Hhi;
    [|apply N.Div0.div_lt_upper_bound; lia|apply N.Div0.div_lt_upper_bound; lia].
  apply hex_digit_inj in Hlo; [|apply N.mod_lt; lia|apply N.mod_lt; lia].
  assert (Byte.to_N b1 = Byte.to_N b2) as Hb.
  { rewrite (N.div_mod (Byte.to_N b1) 16), (N.div_mod (Byte.to_N b2) 16) by lia.
    by rewrite Hhi, Hlo. }
  f_equal; [|by apply IH].
  pose proof (Byte.of_to_N b1) as Ho1. pose proof (Byte.of_to_N b2) as Ho2.
  rewrite Hb, Ho2 in Ho1. by injection Ho1.
Qed.

(** X16. The program adds no collision to those of the hash function:
    two strings that can be encoded are given the same hashed value only if
    they are the same string or the hash function maps their two distinct
    UTF-8 encodings to the same digest. *)
Theorem hashed_values_collide_only_with_digests
    (hash_func : hash_function) (s1 s2 : str) (d1 d2 : bytes) :
  encode_utf8 s1 = Some d1 ->
  encode_utf8 s2 = Some d2 ->
  hexdigest (hash_func d1) = hexdigest (hash_func d2) ->
  s1 = s2 \/ (d1 ≠ d2 /\ hash_func d1 = hash_func d2).
Proof.
  intros H1 H2 Hhex. apply hexdigest_inj in Hhex.
  destruct (List.list_eq_dec Byte.byte_eq_dec d1 d2) as [->|Hne]; [|by right].
  left. by apply (encode_utf8_inj s1 s2 d2).
Qed.

End Properties.

(** ** The properties on the sample run *)

Example sample_run_output :
  sample_run.2 = None
  /\ files sample_run.1 !! lit "out.csv"
     = Some (Regular [ [lit "id"; lit "email"];
                       [lit "1"; lit "0397"];
                       [lit "2"; []];
                       [lit "3"; []] ] None)
  /\ stdout sample_run.1
     = [lit "Successfully hashed column 'email' using SHA256 and saved to 'out.csv'"].
Proof. by vm_compute. Qed.

Example sample_main :
  @main sample_lib sample_args sample_process = (sample_run.1, 0%Z).
Proof. by vm_compute. Qed.

(** A row with more fields than the header stops the run: the writer
    refuses the surplus, after the rows before it have been written. *)
Example sample_long_row :
  let run := sample_run_on [ [lit "id"; lit "email"];
                             [lit "1"; lit "a"];
                             [lit "2"; lit "b"; lit "surplus"];
                             [lit "3"; lit "c"] ] None (lit "email") in
  run.2 = Some 1%Z
  /\ stderr run.1
     = [lit "Error: dict contains fields not in fieldnames: None"]
  /\ files run.1 !! lit "out.csv"
     = Some (Regular [ [lit "id"; lit "email"]; [lit "1"; lit "0361"] ] None).
Proof. by vm_compute. Qed.

(** A name that occurs twice in the header is one key of the row: both
    columns are written with the field of the later one. *)
Example sample_repeated_name :
  let run := sample_run_on [ [lit "a"; lit "a"; lit "email"];
                             [lit "1"; lit "2"; lit "b"] ] None (lit "email") in
  run.2 = None
  /\ files run.1 !! lit "out.csv"
     = Some (Regular [ [lit "a"; lit "a"; lit "email"];
                       [lit "2"; lit "2"; lit "0362"] ] None).
Proof. by vm_compute. Qed.

(** A reader that fails after some records leaves the records before the
    failure in the output. *)
Example sample_read_error :
  let run := sample_run_on [ [lit "id"; lit "email"]; [lit "1"; lit "a"] ]
               (Some (ValueError (lit "invalid start byte"))) (lit "email") in
  run.2 = Some 1%Z
  /\ stderr run.1 = [lit "Error: invalid start byte"]
  /\ files run.1 !! lit "out.csv"
     = Some (Regular [ [lit "id"; lit "email"]; [lit "1"; lit "0361"] ] None).
Proof. by vm_compute. Qed.

(** An input without any record has no header to look the column up in. *)
Example sample_empty_input :
  let run := sample_run_on [] None (lit "email") in
  run.2 = Some 1%Z
  /\ stderr run.1 = [lit "Error: argument of type 'NoneType' is not iterable"]
  /\ files run.1 !! lit "out.csv" = None.
Proof. by vm_compute. Qed.

Example sample_encode_utf8 :
  encode_utf8 [233; 8364; 0x1F600]
  = Some [xc3; xa9; xe2; x82; xac; xf0; x9f; x98; x80]
  /\ encode_utf8 [0xD800] = None.
Proof. by vm_compute. Qed.

Lemma get_hash_function_resolves_witness :
  @get_hash_function sample_lib (lit "SHA256") = inr (sample_digest 3)
  /\ @get_hash_function sample_lib (lit "Blake2B") = inr (sample_digest 5)
  /\ exists msg,
       @get_hash_function sample_lib (lit "sha3") = inl (ValueError msg)
       /\ forall name,
            name ∈ dict_keys (@algorithms sample_lib) -> occurs_in name msg.
Proof.
  split; [|split].
  - apply (proj1 (proj2 (@get_hash_function_resolves sample_lib (lit "SHA256")))
             (lit "sha256")).
    + apply list_elem_of_further, list_elem_of_further, list_elem_of_here.
    + reflexivity.
  - apply (proj1 (proj2 (proj2
             (@get_hash_function_resolves sample_lib (lit "Blake2B"))))
             (lit "blake2b")).
    + do 4 apply list_elem_of_further. apply list_elem_of_here.
    + reflexivity.
  - apply (proj2 (proj2 (proj2
             (@get_hash_function_resolves sample_lib (lit "sha3"))))).
    apply (bool_decide_unpack _). by vm_compute.
Defined.





Lemma short_row_target_written_empty_witness :
  cols (DictReader_row [lit "id"; lit "email"] [lit "3"]) !! lit "email"
  = Some None
  /\ truthy None = false
  /\ @hash_row sample_lib (sample_digest 3) (lit "email")
       (DictReader_row [lit "id"; lit "email"] [lit "3"])
     = inr (DictReader_row [lit "id"; lit "email"] [lit "3"])
  /\ exists out,
       @transcode_row sample_lib (lit "old.csv") [lit "id"; lit "email"]
         (sample_digest 3) (lit "email")
         (DictReader_row [lit "id"; lit "email"] [lit "3"]) sample_process2
       = (Process (<[lit "old.csv" := Regular ([[lit "stale"]] ++ [out]) None]>
                     (files sample_process2))
                  (stdout sample_process2) (stderr sample_process2), inr tt)
       /\ length out = length [lit "id"; lit "email"]
       /\ forall j, [lit "id"; lit "email"] !! j = Some (lit "email") ->
                    out !! j = Some [].
Proof.
  apply (@short_row_target_written_empty sample_lib
           (lit "old.csv") (lit "email") [lit "id"; lit "email"]
           (sample_digest 3) [lit "3"] 1%nat sample_process2 [[lit "stale"]]).
  - simpl. lia.
  - reflexivity.
  - by vm_compute.
Defined.

Lemma missing_column_reported_witness :
  exists msg,
    @hash_csv_column sample_lib (lit "in.csv") (lit "out.csv") (lit "mail")
      (lit "sha256") sample_process
    = (Process (files sample_process) (stdout sample_process)
         (stderr sample_process ++ [lit "Error: " ++ msg]), Some 1%Z)
    /\ occurs_in (lit "mail") msg
    /\ forall name, name ∈ [lit "id"; lit "email"] -> occurs_in name msg.
Proof.
  apply (@missing_column_reported sample_lib
           (lit "in.csv") (lit "out.csv") (lit "mail") (lit "sha256")
           sample_process (sample_digest 3)
           [lit "id"; lit "email"] (tail sample_input) None).
  - reflexivity.
  - by vm_compute.
  - apply (bool_decide_unpack _). by vm_compute.
Defined.

Lemma missing_column_leaves_output_untouched_witness :
  (@hash_csv_column sample_lib (lit "copy.csv") (lit "old.csv") (lit "mail")
     (lit "sha256") sample_process2).2 = Some 1%Z
  /\ files (@hash_csv_column sample_lib (lit "copy.csv") (lit "old.csv")
              (lit "mail") (lit "sha256") sample_process2).1
     = files sample_process2
  /\ files (@hash_csv_column sample_lib (lit "copy.csv") (lit "old.csv")
              (lit "mail") (lit "sha256") sample_process2).1 !! lit "old.csv"
     = files sample_process2 !! lit "old.csv".
Proof.
  apply (@missing_column_leaves_output_untouched sample_lib
           (lit "copy.csv") (lit "old.csv") (lit "mail") (lit "sha256")
           sample_process2 [lit "id"; lit "email"] (tail sample_input) None).
  - by vm_compute.
  - apply (bool_decide_unpack _). by vm_compute.
Defined.

Lemma missing_input_exits_before_writing_witness :
  (@main sample_lib
     {| input_file := lit "absent.csv"; output_file := lit "old.csv";
        column_name := lit "email"; algorithm := lit "sha256" |}
     sample_process2).2 = 1%Z
  /\ files (@main sample_lib
              {| input_file := lit "absent.csv"; output_file := lit "old.csv";
                 column_name := lit "email"; algorithm := lit "sha256" |}
              sample_process2).1
     = files sample_process2
  /\ (files sample_process2 !! lit "absent.csv" = None ->
      @main sample_lib
        {| input_file := lit "absent.csv"; output_file := lit "old.csv";
           column_name := lit "email"; algorithm := lit "sha256" |}
        sample_process2
      = (Process (files sample_process2) (stdout sample_process2)
           (stderr sample_process2
            ++ [lit "Error: Input file '" ++ lit "absent.csv"
                ++ lit "' does not exist"]), 1%Z)).
Proof.
  apply (@missing_input_exits_before_writing sample_lib
           {| input_file := lit "absent.csv"; output_file := lit "old.csv";
              column_name := lit "email"; algorithm := lit "sha256" |}
           sample_process2).
  intros records read_error. by vm_compute.
Defined.


(** ** The further properties on sample runs *)

Lemma unsupported_algorithm_exits_witness :
  exists msg,
    @hash_csv_column sample_lib (lit "absent.csv") (lit "out.csv")
      (lit "email") (lit "sha3") sample_process
    = (Process (files sample_process) (stdout sample_process)
         (stderr sample_process ++ [lit "Error: " ++ msg]), Some 1%Z)
    /\ occurs_in (lit "sha3") msg
    /\ forall name,
         name ∈ dict_keys (@algorithms sample_lib) -> occurs_in name msg.
Proof.
  apply (@unsupported_algorithm_exits sample_lib (lit "absent.csv")
           (lit "out.csv") (lit "email") (lit "sha3") sample_process).
  apply (bool_decide_unpack _). by vm_compute.
Defined.

Lemma missing_input_file_not_found_witness :
  @hash_csv_column sample_lib (lit "absent.csv") (lit "out.csv") (lit "email")
    (lit "sha256") sample_process
  = (Process (files sample_process) (stdout sample_process)
       (stderr sample_process
        ++ [lit "Error: File not found - "
            ++ @no_such_file_str sample_lib (lit "absent.csv")]),
     Some 1%Z).
Proof.
  apply (@missing_input_file_not_found sample_lib (lit "absent.csv")
           (lit "out.csv") (lit "email") (lit "sha256") sample_process
           (sample_digest 3)).
  - reflexivity.
  - by vm_compute.
Defined.



Lemma only_output_path_changes_witness :
  files (@main sample_lib sample_args sample_process).1 !! lit "in.csv"
  = files sample_process !! lit "in.csv".
Proof.
  apply (@only_output_path_changes sample_lib sample_args sample_process
           (lit "in.csv")).
  by vm_compute.
Defined.


Lemma empty_input_rejected_witness :
  @hash_csv_column sample_lib (lit "in.csv") (lit "out.csv") (lit "email")
    (lit "sha256") (sample_process_on [] None)
  = (Process (files (sample_process_on [] None)) []
       ([] ++ [lit "Error: " ++ @none_not_iterable_str sample_lib]),
     Some 1%Z).
Proof.
  apply (@empty_input_rejected sample_lib (lit "in.csv") (lit "out.csv")
           (lit "email") (lit "sha256") (sample_process_on [] None)
           (sample_digest 3)).
  - reflexivity.
  - by vm_compute.
Defined.


Lemma choices_resolve_witness :
  exists hash_func,
    (lit "sha512", hash_func) ∈ @algorithms sample_lib
    /\ @get_hash_function sample_lib (lit "sha512") = inr hash_func.
Proof.
  apply (@choices_resolve sample_lib (lit "sha512")).
  do 3 apply list_elem_of_further. apply list_elem_of_here.
Defined.


Lemma repeated_name_last_field_witness :
  exists out,
    @transcode_row sample_lib (lit "old.csv") [lit "a"; lit "a"; lit "email"]
      (sample_digest 3) (lit "email")
      (DictReader_row [lit "a"; lit "a"; lit "email"]
         [lit "1"; lit "2"; lit "b"]) sample_process2
    = (Process (<[lit "old.csv" := Regular ([[lit "stale"]] ++ [out]) None]>
                  (files sample_process2))
               (stdout sample_process2) (stderr sample_process2), inr tt)
    /\ (lit "a" ≠ lit "email" ->
        out !! 0%nat
        = Some (default [] ([lit "1"; lit "2"; lit "b"] !! 1%nat)))
    /\ (lit "a" = lit "email" ->
        match [lit "1"; lit "2"; lit "b"] !! 1%nat with
        | Some (c :: v) =>
            exists data, encode_utf8 (c :: v) = Some data
                         /\ out !! 0%nat
                            = Some (hexdigest (sample_digest 3 data))
        | _ => out !! 0%nat = Some []
        end).
Proof.
  apply (@repeated_name_last_field sample_lib (lit "old.csv") (lit "email")
           [lit "a"; lit "a"; lit "email"] (sample_digest 3)
           [lit "1"; lit "2"; lit "b"] sample_process2 [[lit "stale"]]
           0%nat 1%nat (lit "a")).
  - by vm_compute.
  - do 2 apply list_elem_of_further. apply list_elem_of_here.
  - unfold well_formed. apply (bool_decide_unpack _). by vm_compute.
  - reflexivity.
  - reflexivity.
  - intros [|[|[|k']]] Hk'; try lia; by vm_compute.
Defined.

Lemma blank_records_dropped_witness :
  let s0 :=
    Process (<[lit "in.csv" := Regular (sample_header
                                        :: data_rows (tail sample_input))
                                 None]> (files sample_process))
            (stdout sample_process) (stderr sample_process) in
  let run :=
    @hash_csv_column sample_lib (lit "in.csv") (lit "out.csv") (lit "email")
      (lit "sha256") sample_process in
  let run0 :=
    @hash_csv_column sample_lib (lit "in.csv") (lit "out.csv") (lit "email")
      (lit "sha256") s0 in
  run0.2 = run.2
  /\ files run0.1 !! lit "out.csv" = files run.1 !! lit "out.csv"
  /\ stdout run0.1 = stdout run.1
  /\ stderr run0.1 = stderr run.1.
Proof.
  apply (@blank_records_dropped sample_lib (lit "in.csv") (lit "out.csv")
           (lit "email") (lit "sha256") sample_process sample_header
           (tail sample_input) None).
  - by vm_compute.
  - by vm_compute.
Defined.

Lemma unopenable_output_nothing_written_witness :
  exists text,
    @hash_csv_column sample_lib (lit "in.csv") (lit "dir") (lit "email")
      (lit "sha256") (sample_process_on sample_input None)
    = (Process (files (sample_process_on sample_input None)) []
         ([] ++ [lit "Error: " ++ text]), Some 1%Z)
    /\ occurs_in (exn_str (OtherException (lit "Is a directory"))) text.
Proof.
  apply (@unopenable_output_nothing_written sample_lib (lit "in.csv")
           (lit "dir") (lit "email") (lit "sha256")
           (sample_process_on sample_input None) (sample_digest 3)
           sample_header (tail sample_input) None
           (OtherException (lit "Is a directory"))).
  - reflexivity.
  - by vm_compute.
  - apply list_elem_of_further, list_elem_of_here.
  - by vm_compute.
Defined.

Lemma main_missing_column_witness :
  exists msg,
    @main sample_lib
      {| input_file := lit "in.csv"; output_file := lit "out.csv";
         column_name := lit "mail"; algorithm := lit "md5" |}
      sample_process
    = (Process (files sample_process) (stdout sample_process)
         (stderr sample_process ++ [lit "Error: " ++ msg]), 1%Z)
    /\ occurs_in (lit "mail") msg
    /\ forall name, name ∈ sample_header -> occurs_in name msg.
Proof.
  apply (@main_missing_column sample_lib
           {| input_file := lit "in.csv"; output_file := lit "out.csv";
              column_name := lit "mail"; algorithm := lit "md5" |}
           sample_process sample_header (tail sample_input) None).
  - apply list_elem_of_here.
  - by vm_compute.
  - apply (bool_decide_unpack _). by vm_compute.
Defined.

Lemma hashed_values_collide_only_with_digests_witness :
  lit "ab" = lit "ba"
  \/ ([x61; x62] ≠ [x62; x61]
      /\ sample_digest 3 [x61; x62] = sample_digest 3 [x62; x61]).
Proof.
  apply (hashed_values_collide_only_with_digests (sample_digest 3)
           (lit "ab") (lit "ba") [x61; x62] [x62; x61]).
  - reflexivity.
  - reflexivity.
  - reflexivity.
Defined.
